(** * API-from-Scratch: the generation pipeline of [app.py]

    A shallow embedding of the five core functions of [app.py]
    ([generate_openapi], [scaffold_fastapi_app], [scaffold_client_demo],
    [make_zip], [evaluate_api_quality]) and of the archive layout assembled
    by the page, followed by the properties the specification states
    about them.

    Conventions.
    - A Python [str] is a [string] of 8-bit characters; [str.lower] and
      [str.upper] act on the ASCII letters and leave every other character
      alone, and [len] counts characters. Text outside ASCII is not
      covered.
    - A Python [dict] is an insertion-ordered association list ([odict]):
      assigning to a key that is present replaces the value in place,
      assigning to a new key appends it.
    - A raised exception is [None].
    - Library calls whose result the code only passes on
      ([yaml.safe_dump], the deflate codec) and the clock are parameters
      of the development; Jinja2 and [zipfile] are modelled as far as the
      code uses them. *)

From Stdlib Require Import String Ascii List ZArith Lia Bool Permutation.
Import ListNotations.
Open Scope string_scope.

(** ** Python strings *)

Module PyStr.

Definition is_upper (c : ascii) : bool :=
  let n := nat_of_ascii c in (65 <=? n)%nat && (n <=? 90)%nat.

Definition is_lower (c : ascii) : bool :=
  let n := nat_of_ascii c in (97 <=? n)%nat && (n <=? 122)%nat.

Definition lower_char (c : ascii) : ascii :=
  if is_upper c then ascii_of_nat (nat_of_ascii c + 32) else c.

Definition upper_char (c : ascii) : ascii :=
  if is_lower c then ascii_of_nat (nat_of_ascii c - 32) else c.

(** [s.lower()] *)
Fixpoint lower (s : string) : string :=
  match s with
  | EmptyString => EmptyString
  | String c s' => String (lower_char c) (lower s')
  end.

(** [s.upper()] *)
Fixpoint upper (s : string) : string :=
  match s with
  | EmptyString => EmptyString
  | String c s' => String (upper_char c) (upper s')
  end.

(** The characters that string literals of the source write with an
    escape or that cannot stand in a literal here. *)
Definition LF : ascii := "010"%char.
Definition NUL : ascii := "000"%char.
Definition nl : string := String LF EmptyString.
Definition dq : string := String "034"%char EmptyString.

(** [sep.join(parts)] *)
Fixpoint join (sep : string) (parts : list string) : string :=
  match parts with
  | [] => ""
  | [p] => p
  | p :: rest => p ++ sep ++ join sep rest
  end.

(** The parts one after the other. *)
Fixpoint concat_all (parts : list string) : string :=
  match parts with
  | [] => ""
  | p :: rest => p ++ concat_all rest
  end.

(** [c in s] for a character [c]. *)
Fixpoint has_char (c : ascii) (s : string) : bool :=
  match s with
  | EmptyString => false
  | String d s' => Ascii.eqb c d || has_char c s'
  end.

(** [needle in s] for strings. *)
Fixpoint contains (needle s : string) : bool :=
  String.prefix needle s ||
  match s with
  | EmptyString => false
  | String _ s' => contains needle s'
  end.

(** The lines of a text, split at line feeds; a final line feed ends the
    last line and does not open another one. *)
Fixpoint lines (s : string) : list string :=
  match s with
  | EmptyString => []
  | String c s' =>
      if Ascii.eqb c LF then "" :: lines s'
      else match lines s' with
           | [] => [String c ""]
           | l :: ls => String c l :: ls
           end
  end.

End PyStr.

(** ** Insertion-ordered dictionaries *)

Module PyDict.

Definition odict (V : Type) : Type := list (string * V).

Definition keys {V} (d : odict V) : list string := map fst d.

(** [d.get(k)] *)
Fixpoint get {V} (k : string) (d : odict V) : option V :=
  match d with
  | [] => None
  | (k', v) :: d' => if String.eqb k k' then Some v else get k d'
  end.

(** [d[k] = v] *)
Fixpoint set {V} (k : string) (v : V) (d : odict V) : odict V :=
  match d with
  | [] => [(k, v)]
  | (k', v') :: d' =>
      if String.eqb k k' then (k', v) :: d' else (k', v') :: set k v d'
  end.

(** The value [d.setdefault(k, dflt)] returns. *)
Definition setdefault_value {V} (k : string) (dflt : V) (d : odict V) : V :=
  match get k d with
  | Some v => v
  | None => dflt
  end.

End PyDict.

Import PyStr PyDict.

(** ** Endpoint records

    The dictionaries of [demo_apis]: the keys ['path'], ['method'] and
    ['func_name'] are read with [ep[...]], ['summary'] with
    [ep.get('summary', '')], so only the latter may be absent. *)

Record endpoint : Type := Endpoint {
  path : string;
  method : string;
  summary : option string;
  func_name : string
}.

(** [ep.get('summary', '')] *)
Definition summary_or_empty (ep : endpoint) : string :=
  match summary ep with
  | Some s => s
  | None => ""
  end.

(** ** [generate_openapi] *)

(** The values handed to [yaml.safe_dump]: strings, lists and mappings. *)
#[local] Set Warnings "-register-all".
Inductive node : Type :=
| Str (s : string)
| Seq (items : list node)
| Map (fields : list (string * node)).

(** [{'summary': ..., 'responses': {'200': {'description': 'Success'}}}] *)
Definition operation (summ : string) : node :=
  Map [("summary", Str summ);
       ("responses", Map [("200", Map [("description", Str "Success")])])].

(** One turn of the loop:
    [spec['paths'].setdefault(path, {})[method] = {...}]. *)
Definition add_operation (paths : odict (odict node)) (ep : endpoint)
  : odict (odict node) :=
  let p := path ep in
  let m := lower (method ep) in
  let inner := setdefault_value p [] paths in
  set p (set m (operation (summary_or_empty ep)) inner) paths.

(** [spec['paths']] after the loop. *)
Definition build_paths (endpoints : list endpoint) : odict (odict node) :=
  fold_left add_operation endpoints [].

Definition paths_node (paths : odict (odict node)) : node :=
  Map (map (fun pm => (fst pm, Map (snd pm))) paths).

(** The dictionary [spec] at the [return]. *)
Definition openapi_spec (api_name version desc : string)
    (endpoints : list endpoint) : node :=
  Map [("openapi", Str "3.0.3");
       ("info", Map [("title", Str api_name);
                     ("version", Str version);
                     ("description", Str desc)]);
       ("servers", Seq [Map [("url", Str "{{baseUrl}}")]]);
       ("paths", paths_node (build_paths endpoints))].

(** [paths[p][m]] where both keys are present. *)
Definition lookup_operation (p m : string) (paths : odict (odict node))
  : option node :=
  match get p paths with
  | Some ops => get m ops
  | None => None
  end.

Section Yaml.

(** [yaml.safe_dump(_, sort_keys=False)], the serializer of PyYAML. *)
Variable safe_dump : node -> string.

Definition generate_openapi (api_name version desc : string)
    (endpoints : list endpoint) : string :=
  safe_dump (openapi_spec api_name version desc endpoints).

End Yaml.

(** ** A fragment of Jinja2, enough for the template of
    [scaffold_fastapi_app]

    [Template(src)] lexes [src] into data, [{{ expression }}] and
    [{% statement %}] tokens and parses them into a tree; [render] walks
    the tree. The default environment applies: no autoescaping,
    [trim_blocks] and [lstrip_blocks] off, and one trailing line feed of
    the source dropped ([keep_trailing_newline=False]). *)

Module Jinja.

Inductive expr : Type :=
| Name (x : string)                    (* x        *)
| Getattr (e : expr) (a : string)      (* e.a      *)
| Call0 (e : expr) (f : string).       (* e.f()    *)

Inductive tnode : Type :=
| Data (s : string)
| Output (e : expr)
| For (x : string) (iter : expr) (body : list tnode).

Inductive value : Type :=
| VStr (s : string)
| VDict (d : list (string * value))
| VList (l : list value)
| Undefined.

Definition context : Type := odict value.

Inductive token : Type :=
| TokData (s : string)
| TokVar (src : string)
| TokBlock (src : string).

(** *** Lexer *)

Fixpoint drop (n : nat) (s : string) : string :=
  match n, s with
  | O, _ => s
  | S _, EmptyString => EmptyString
  | S n', String _ s' => drop n' s'
  end.

(** Split at the first occurrence of [delim]. *)
Fixpoint split_at (delim s : string) : option (string * string) :=
  if String.prefix delim s then Some ("", drop (String.length delim) s)
  else match s with
       | EmptyString => None
       | String c s' =>
           match split_at delim s' with
           | Some (a, b) => Some (String c a, b)
           | None => None
           end
       end.

Definition push_data (c : ascii) (ts : list token) : list token :=
  match ts with
  | TokData d :: ts' => TokData (String c d) :: ts'
  | _ => TokData (String c "") :: ts
  end.

Fixpoint lex (fuel : nat) (s : string) : option (list token) :=
  match fuel with
  | O => None
  | S fuel' =>
      match s with
      | EmptyString => Some []
      | String c s' =>
          if String.prefix "{{" s then
            match split_at "}}" (drop 2 s) with
            | Some (e, rest) => option_map (cons (TokVar e)) (lex fuel' rest)
            | None => None
            end
          else if String.prefix "{%" s then
            match split_at "%}" (drop 2 s) with
            | Some (b, rest) => option_map (cons (TokBlock b)) (lex fuel' rest)
            | None => None
            end
          else option_map (push_data c) (lex fuel' s')
      end
  end.

(** [keep_trailing_newline=False] *)
Fixpoint drop_trailing_newline (s : string) : string :=
  match s with
  | EmptyString => EmptyString
  | String c EmptyString => if Ascii.eqb c LF then EmptyString else s
  | String c s' => String c (drop_trailing_newline s')
  end.

(** *** Parser *)

Definition SP : ascii := " "%char.

(** The words of [s], separated by [sep]; empty words are dropped. *)
Fixpoint words (sep : ascii) (s : string) : list string :=
  match s with
  | EmptyString => []
  | String c s' =>
      if Ascii.eqb c sep then "" :: words sep s'
      else match words sep s' with
           | w :: ws => String c w :: ws
           | [] => [String c ""]
           end
  end.

Definition nonempty (s : string) : bool :=
  match s with EmptyString => false | _ => true end.

Definition fields (sep : ascii) (s : string) : list string :=
  filter nonempty (words sep s).

(** [Some f] when the segment reads [f()]. *)
Fixpoint call_name (seg : string) : option string :=
  match seg with
  | EmptyString => None
  | String c s' =>
      if String.eqb seg "()" then Some ""
      else option_map (String c) (call_name s')
  end.

Definition parse_postfix (e : expr) (seg : string) : expr :=
  match call_name seg with
  | Some f => Call0 e f
  | None => Getattr e seg
  end.

(** [x], [x.a], [x.a.f()] with blanks around. *)
Definition parse_expr (src : string) : option expr :=
  match fields SP src with
  | [e] =>
      match fields "."%char e with
      | x :: segs => Some (fold_left parse_postfix segs (Name x))
      | [] => None
      end
  | _ => None
  end.

(** Parses up to the end of the tokens or to the [endfor] that closes the
    enclosing loop; returns the nodes and the tokens left. *)
Fixpoint parse (fuel : nat) (ts : list token)
  : option (list tnode * list token) :=
  match fuel with
  | O => None
  | S fuel' =>
      match ts with
      | [] => Some ([], [])
      | TokData d :: ts' =>
          match parse fuel' ts' with
          | Some (ns, rest) => Some (Data d :: ns, rest)
          | None => None
          end
      | TokVar src :: ts' =>
          match parse_expr src, parse fuel' ts' with
          | Some e, Some (ns, rest) => Some (Output e :: ns, rest)
          | _, _ => None
          end
      | TokBlock src :: ts' =>
          match fields SP src with
          | ["endfor"] => Some ([], TokBlock src :: ts')
          | ["for"; x; "in"; it] =>
              match parse_expr it, parse fuel' ts' with
              | Some e, Some (body, TokBlock _ :: after) =>
                  match parse fuel' after with
                  | Some (ns, rest) => Some (For x e body :: ns, rest)
                  | None => None
                  end
              | _, _ => None
              end
          | _ => None
          end
      end
  end.

(** [Template(src)] *)
Definition template (src : string) : option (list tnode) :=
  let src' := drop_trailing_newline src in
  match lex (S (String.length src')) src' with
  | Some ts =>
      match parse (S (List.length ts)) ts with
      | Some (ns, []) => Some ns
      | _ => None
      end
  | None => None
  end.

(** *** Evaluation; [None] stands for a raised exception (or a value this
    fragment does not print). *)

Fixpoint eval (ctx : context) (e : expr) : option value :=
  match e with
  | Name x =>
      match get x ctx with
      | Some v => Some v
      | None => Some Undefined
      end
  | Getattr e' a =>
      match eval ctx e' with
      | Some (VDict d) =>
          match get a d with
          | Some v => Some v
          | None => Some Undefined
          end
      | Some Undefined => None
      | Some _ => Some Undefined
      | None => None
      end
  | Call0 e' f =>
      match eval ctx e' with
      | Some (VStr s) => if String.eqb f "lower" then Some (VStr (lower s)) else None
      | _ => None
      end
  end.

Definition to_text (v : value) : option string :=
  match v with
  | VStr s => Some s
  | Undefined => Some ""
  | _ => None
  end.

Definition cat (a b : option string) : option string :=
  match a, b with
  | Some x, Some y => Some (x ++ y)
  | _, _ => None
  end.

Fixpoint cat_all (parts : list (option string)) : option string :=
  match parts with
  | [] => Some ""
  | p :: parts' => cat p (cat_all parts')
  end.

(** The loop [{% for x in vs %} body {% endfor %}]. *)
Fixpoint for_each (x : string) (ctx : context)
    (body : context -> option string) (vs : list value) : option string :=
  match vs with
  | [] => Some ""
  | v :: vs' => cat (body (set x v ctx)) (for_each x ctx body vs')
  end.

Fixpoint render_node (n : tnode) (ctx : context) {struct n} : option string :=
  match n with
  | Data s => Some s
  | Output e =>
      match eval ctx e with
      | Some v => to_text v
      | None => None
      end
  | For x it body =>
      match eval ctx it with
      | Some (VList vs) =>
          for_each x ctx
            (fun ctx' => cat_all (map (fun n' => render_node n' ctx') body)) vs
      | _ => None
      end
  end.

(** [template.render(...)] with the keyword arguments in [ctx]. *)
Definition render (ns : list tnode) (ctx : context) : option string :=
  cat_all (map (fun n => render_node n ctx) ns).

End Jinja.

(** ** [scaffold_fastapi_app] *)

(** What a call reads from its surroundings: the clock, as
    [datetime.utcnow().isoformat()] prints it. *)
Record world : Type := World {
  utcnow_isoformat : string
}.

(** The template literal, line by line. *)
Definition fastapi_template_source : string :=
  join nl
    [ "";
      "from fastapi import FastAPI";
      "";
      "app = FastAPI(title=" ++ dq ++ "{{title}}" ++ dq
        ++ ", version=" ++ dq ++ "{{version}}" ++ dq ++ ")";
      "";
      "@app.get(" ++ dq ++ "/health" ++ dq ++ ")";
      "async def health():";
      "    return {" ++ dq ++ "status" ++ dq ++ ": " ++ dq ++ "ok" ++ dq ++ ", "
        ++ dq ++ "timestamp" ++ dq ++ ": " ++ dq ++ "{{timestamp}}" ++ dq ++ "}";
      "";
      "{% for ep in endpoints %}";
      "@app.{{ep.method.lower()}}(" ++ dq ++ "{{ep.path}}" ++ dq ++ ")";
      "async def {{ep.func_name}}():";
      "    return {" ++ dq ++ "demo" ++ dq ++ ": " ++ dq ++ "{{ep.summary}}" ++ dq ++ "}";
      "{% endfor %}";
      "" ].

(** An endpoint dictionary as the template sees it. *)
Definition endpoint_value (ep : endpoint) : Jinja.value :=
  Jinja.VDict
    ([("path", Jinja.VStr (path ep)); ("method", Jinja.VStr (method ep))]
     ++ match summary ep with
        | Some s => [("summary", Jinja.VStr s)]
        | None => []
        end
     ++ [("func_name", Jinja.VStr (func_name ep))])%list.

(** The keyword arguments of [template.render]. *)
Definition render_context (w : world) (api_name version : string)
    (endpoints : list endpoint) : Jinja.context :=
  [("title", Jinja.VStr api_name);
   ("version", Jinja.VStr version);
   ("endpoints", Jinja.VList (map endpoint_value endpoints));
   ("timestamp", Jinja.VStr (utcnow_isoformat w))].

(** [None] would be an exception raised by Jinja2. *)
Definition scaffold_fastapi_app (w : world) (api_name version : string)
    (endpoints : list endpoint) : option string :=
  match Jinja.template fastapi_template_source with
  | Some t => Jinja.render t (render_context w api_name version endpoints)
  | None => None
  end.

(** ** [scaffold_client_demo] *)

(** [repr(s)] for a string without quotes, backslashes or control
    characters. *)
Definition repr_plain (s : string) : string := "'" ++ s ++ "'".

(** [str({s})], a set with one string. *)
Definition str_of_singleton (s : string) : string := "{" ++ repr_plain s ++ "}".

Definition client_preamble : string :=
  join nl ["import requests";
           "BASE_URL = " ++ dq ++ "http://localhost:8000" ++ dq;
           ""].

(** The f-string of the first [append]: the replacement fields are
    [ep['method'].lower()], [ { 'BASE_URL' } ] (a set display, because the
    braces are separated by a blank) and [ep['path']]. *)
Definition request_line (ep : endpoint) : string :=
  "resp = requests." ++ lower (method ep) ++ "(f'"
    ++ str_of_singleton "BASE_URL" ++ path ep ++ "')".

Definition print_line : string := "print(resp.status_code, resp.text)".

(** The list [code] after the loop. *)
Definition client_code (endpoints : list endpoint) : list string :=
  fold_left (fun code ep => ((code ++ [request_line ep]) ++ [print_line])%list)
    endpoints [client_preamble].

Definition scaffold_client_demo (endpoints : list endpoint) : string :=
  join nl (client_code endpoints).

(** ** [make_zip]

    The archive is kept as the sequence of its members; the framing of the
    ZIP container (headers, central directory) is left out. What
    [zipfile] (CPython 3.11) does with a member name is kept:
    [ZipInfo(filename)] ends the name at the first null character,
    [writestr] reads the last character of the name ([IndexError] on an
    empty one), and the file header holds the length of the name in 16
    bits ([struct.error] beyond). [None] stands for a raised exception. *)

Record zip_member : Type := ZipMember {
  member_name : string;
  member_data : string
}.

(** [ZipInfo(filename).filename] *)
Fixpoint zipinfo_filename (fname : string) : string :=
  match fname with
  | EmptyString => EmptyString
  | String c s' => if Ascii.eqb c NUL then EmptyString
                   else String c (zipinfo_filename s')
  end.

Definition max_name_length : N := 65535%N.

Section Zip.

(** The deflate codec of zlib. *)
Variables deflate inflate : string -> string.

(** [z.writestr(fname, content)] with [ZIP_DEFLATED]. *)
Definition writestr (z : list zip_member) (fname content : string)
  : option (list zip_member) :=
  let name := zipinfo_filename fname in
  match name with
  | EmptyString => None
  | _ =>
      if (N.of_nat (String.length name) <=? max_name_length)%N
      then Some (z ++ [ZipMember name (deflate content)])%list
      else None
  end.

Definition make_zip (files : odict string) : option (list zip_member) :=
  fold_left (fun acc kv =>
               match acc with
               | Some z => writestr z (fst kv) (snd kv)
               | None => None
               end)
    files (Some []).

(** Reading the archive back: every member's name with its inflated
    content, in archive order. *)
Definition unzip (z : list zip_member) : list (string * string) :=
  map (fun m => (member_name m, inflate (member_data m))) z.

End Zip.

(** ** The archive layout assembled by the page *)

Definition readme (api_name desc : string) : string :=
  "# " ++ api_name ++ nl ++ nl ++ desc ++ nl.

(** The dictionary [files]. *)
Definition project_files (api_name desc openapi_yaml fastapi_code client_code : string)
  : odict string :=
  [("openapi.yaml", openapi_yaml);
   ("backend/main.py", fastapi_code);
   ("client_demo.py", client_code);
   ("README.md", readme api_name desc)].

(** ** [evaluate_api_quality] *)

Open Scope Z_scope.

Definition len {A} (l : list A) : Z := Z.of_nat (List.length l).
Definition strlen (s : string) : Z := Z.of_nat (String.length s).

(** [x in l] for a list of strings. *)
Definition in_list (x : string) (l : list string) : bool :=
  existsb (String.eqb x) l.

(** [sum(1 for x in l if f x)] *)
Definition count_if {A} (f : A -> bool) (l : list A) : Z :=
  fold_left (fun acc x => if f x then acc + 1 else acc) l 0.

Definition evaluate_api_quality (endpoints : list endpoint) : Z :=
  let score := 0 in
  match endpoints with
  | [] => 0
  | _ =>
      let score :=
        if 3 <=? len endpoints then score + 5
        else if len endpoints =? 2 then score + 3
        else score + 1 in
      let methods := map (fun ep => upper (method ep)) endpoints in
      let score :=
        if in_list "GET" methods && in_list "POST" methods then score + 3
        else if in_list "GET" methods || in_list "POST" methods then score + 1
        else score in
      let clarity_count :=
        count_if (fun ep => 3 <? strlen (func_name ep)) endpoints in
      let score :=
        if len endpoints <=? clarity_count then score + 2
        else if 0 <? clarity_count then score + 1
        else score in
      score
  end.

(** ** The demo data of the page *)

Definition todo_api : list endpoint :=
  [Endpoint "/todos" "GET" (Some "List todos") "list_todos";
   Endpoint "/todos" "POST" (Some "Create todo") "create_todo"].

Definition calculator_api : list endpoint :=
  [Endpoint "/add" "GET" (Some "Add two numbers") "add";
   Endpoint "/multiply" "GET" (Some "Multiply two numbers") "multiply"].

(** ** Vocabulary of the statements *)

Close Scope Z_scope.

(** [n[k]] for a mapping node. *)
Definition field (k : string) (n : node) : option node :=
  match n with
  | Map fs => get k fs
  | _ => None
  end.

(** The path map flattened to its [(path, method, operation)] entries. *)
Definition entries (paths : odict (odict node)) : list (string * string * node) :=
  flat_map (fun pm => map (fun mo => (fst pm, fst mo, snd mo)) (snd pm)) paths.

Definition is_entry_of (p m : string) (e : string * string * node) : bool :=
  String.eqb (fst (fst e)) p && String.eqb (snd (fst e)) m.

(** An endpoint writes to [paths[p][m]]. *)
Definition targets (p m : string) (ep : endpoint) : bool :=
  String.eqb (path ep) p && String.eqb (lower (method ep)) m.

(** The last endpoint of the list that writes to [paths[p][m]]. *)
Definition last_write (p m : string) (endpoints : list endpoint) : option endpoint :=
  find (targets p m) (rev endpoints).

(** Two endpoints that differ at most in [func_name]. *)
Definition same_but_func_name (a b : endpoint) : Prop :=
  path a = path b /\ method a = method b /\ summary a = summary b.

(** Keys are distinct at both levels of the path map. *)
Definition well_keyed (P : odict (odict node)) : Prop :=
  NoDup (keys P) /\ Forall (fun po => NoDup (keys (snd po))) P.

(** The scoring rules in the words of the specification. *)

Definition caseless_eq (a b : string) : bool :=
  String.eqb (lower a) (lower b).

(** The verb occurs among the methods, case-insensitively. *)
Definition has_method (verb : string) (endpoints : list endpoint) : bool :=
  existsb (fun ep => caseless_eq (method ep) verb) endpoints.

(** The handler name is longer than three characters. *)
Definition clear_name (ep : endpoint) : bool :=
  (3 <? strlen (func_name ep))%Z.

Definition breadth_points (endpoints : list endpoint) : Z :=
  if (3 <=? len endpoints)%Z then 5%Z
  else if (len endpoints =? 2)%Z then 3%Z
  else 1%Z.

Definition crud_points (endpoints : list endpoint) : Z :=
  match has_method "GET" endpoints, has_method "POST" endpoints with
  | true, true => 3%Z
  | true, false | false, true => 1%Z
  | false, false => 0%Z
  end.

Definition clarity_points (endpoints : list endpoint) : Z :=
  if forallb clear_name endpoints then 2%Z
  else if existsb clear_name endpoints then 1%Z
  else 0%Z.

Definition score_by_the_rules (endpoints : list endpoint) : Z :=
  match endpoints with
  | [] => 0%Z
  | _ => (breadth_points endpoints + crud_points endpoints
          + clarity_points endpoints)%Z
  end.

(** The text of the server scaffold, piece by piece. *)

(** A decorated handler declaration. *)
Definition handler_decl (verb route name body : string) : string :=
  "@app." ++ verb ++ "(" ++ dq ++ route ++ dq ++ ")" ++ nl
  ++ "async def " ++ name ++ "():" ++ nl
  ++ "    return " ++ body ++ nl.

Definition health_body (timestamp : string) : string :=
  "{" ++ dq ++ "status" ++ dq ++ ": " ++ dq ++ "ok" ++ dq ++ ", "
  ++ dq ++ "timestamp" ++ dq ++ ": " ++ dq ++ timestamp ++ dq ++ "}".

Definition demo_body (summ : string) : string :=
  "{" ++ dq ++ "demo" ++ dq ++ ": " ++ dq ++ summ ++ dq ++ "}".

Definition health_handler (timestamp : string) : string :=
  handler_decl "get" "/health" "health" (health_body timestamp).

Definition endpoint_handler (ep : endpoint) : string :=
  handler_decl (lower (method ep)) (path ep) (func_name ep)
    (demo_body (summary_or_empty ep)).

Definition fastapi_header (api_name version : string) : string :=
  nl ++ "from fastapi import FastAPI" ++ nl ++ nl
  ++ "app = FastAPI(title=" ++ dq ++ api_name ++ dq
  ++ ", version=" ++ dq ++ version ++ dq ++ ")" ++ nl ++ nl.

(** The handlers as the scaffold spaces them: a line feed after the
    first, one before each of the others. *)
Definition layout_handlers (handlers : list string) : string :=
  match handlers with
  | [] => ""
  | h :: rest => h ++ nl ++ concat_all (map (fun h' => nl ++ h') rest)
  end.

(** The body of the template's loop as a tree. *)
Definition endpoint_block_tree : list Jinja.tnode :=
  [ Jinja.Data (nl ++ "@app.");
    Jinja.Output (Jinja.Call0 (Jinja.Getattr (Jinja.Name "ep") "method") "lower");
    Jinja.Data ("(" ++ dq);
    Jinja.Output (Jinja.Getattr (Jinja.Name "ep") "path");
    Jinja.Data (dq ++ ")" ++ nl ++ "async def ");
    Jinja.Output (Jinja.Getattr (Jinja.Name "ep") "func_name");
    Jinja.Data ("():" ++ nl ++ "    return {" ++ dq ++ "demo" ++ dq ++ ": " ++ dq);
    Jinja.Output (Jinja.Getattr (Jinja.Name "ep") "summary");
    Jinja.Data (dq ++ "}" ++ nl) ].

(** The template of [scaffold_fastapi_app] as a tree. *)
Definition fastapi_template_tree : list Jinja.tnode :=
  [ Jinja.Data (nl ++ "from fastapi import FastAPI" ++ nl ++ nl
                ++ "app = FastAPI(title=" ++ dq);
    Jinja.Output (Jinja.Name "title");
    Jinja.Data (dq ++ ", version=" ++ dq);
    Jinja.Output (Jinja.Name "version");
    Jinja.Data (dq ++ ")" ++ nl ++ nl
                ++ "@app.get(" ++ dq ++ "/health" ++ dq ++ ")" ++ nl
                ++ "async def health():" ++ nl
                ++ "    return {" ++ dq ++ "status" ++ dq ++ ": " ++ dq ++ "ok"
                ++ dq ++ ", " ++ dq ++ "timestamp" ++ dq ++ ": " ++ dq);
    Jinja.Output (Jinja.Name "timestamp");
    Jinja.Data (dq ++ "}" ++ nl ++ nl);
    Jinja.For "ep" (Jinja.Name "endpoints") endpoint_block_tree ].

(** The lines that open a handler. *)
Definition is_def_line (l : string) : bool := String.prefix "async def " l.

Definition def_lines (text : string) : list string :=
  filter is_def_line (lines text).

Definition no_line_feed (s : string) : Prop := has_char LF s = false.

(** A text written line by line, each line closed by a line feed. *)
Definition unlines (ls : list string) : string :=
  concat_all (map (fun l => l ++ nl) ls).

Definition app_line (api_name version : string) : string :=
  "app = FastAPI(title=" ++ dq ++ api_name ++ dq
  ++ ", version=" ++ dq ++ version ++ dq ++ ")".

Definition decorator_line (verb route : string) : string :=
  "@app." ++ verb ++ "(" ++ dq ++ route ++ dq ++ ")".

Definition def_line (name : string) : string :=
  "async def " ++ name ++ "():".

Definition return_line (body : string) : string :=
  "    return " ++ body.

(** The lines of one endpoint's block. *)
Definition endpoint_lines (ep : endpoint) : list string :=
  [ "";
    decorator_line (lower (method ep)) (path ep);
    def_line (func_name ep);
    return_line (demo_body (summary_or_empty ep)) ].

(** The lines of the server scaffold. *)
Definition fastapi_lines (w : world) (api_name version : string)
    (endpoints : list endpoint) : list string :=
  ([ ""; "from fastapi import FastAPI"; "";
     app_line api_name version; "";
     decorator_line "get" "/health";
     def_line "health";
     return_line (health_body (utcnow_isoformat w));
     "" ] ++ flat_map endpoint_lines endpoints)%list.

(** No field of the endpoint holds a line feed. *)
Definition single_line_fields (ep : endpoint) : Prop :=
  no_line_feed (path ep) /\ no_line_feed (method ep) /\
  no_line_feed (summary_or_empty ep) /\ no_line_feed (func_name ep).

(** The request line the preamble prepares: an f-string over the
    constant [BASE_URL]. *)
Definition request_line_over_base_url (ep : endpoint) : string :=
  "resp = requests." ++ lower (method ep) ++ "(f'{BASE_URL}" ++ path ep ++ "')".

(** A name [zipfile] stores unchanged. *)
Definition storable_name (fname : string) : Prop :=
  fname <> "" /\ has_char NUL fname = false /\
  (N.of_nat (String.length fname) <= max_name_length)%N.

(** A text of exactly two lines. *)
Definition two_line_document (first second text : string) : Prop :=
  lines text = [first; second].

(** A call of one of the four generators, and what it returns. *)
Inductive generator_call : Type :=
| CallGenerateOpenapi (api_name version desc : string) (endpoints : list endpoint)
| CallScaffoldFastapi (api_name version : string) (endpoints : list endpoint)
| CallScaffoldClient (endpoints : list endpoint)
| CallEvaluateQuality (endpoints : list endpoint).

Inductive generator_output : Type :=
| OutText (text : option string)
| OutScore (score : Z).

(** The call made in the world [w]. *)
Definition run (safe_dump : node -> string) (w : world) (c : generator_call)
  : generator_output :=
  match c with
  | CallGenerateOpenapi n v d eps => OutText (Some (generate_openapi safe_dump n v d eps))
  | CallScaffoldFastapi n v eps => OutText (scaffold_fastapi_app w n v eps)
  | CallScaffoldClient eps => OutText (Some (scaffold_client_demo eps))
  | CallEvaluateQuality eps => OutScore (evaluate_api_quality eps)
  end.

(** ** The page: selection, generation and feedback

    The widgets of Streamlit are left out; what they return is an
    argument. *)

Definition notes_api : list endpoint :=
  [Endpoint "/notes" "GET" (Some "List notes") "list_notes";
   Endpoint "/notes" "POST" (Some "Create note") "create_note"].

(** The dictionary [demo_apis]. *)
Definition demo_apis : odict (list endpoint) :=
  [("Todo API", todo_api);
   ("Notes API", notes_api);
   ("Calculator API", calculator_api)].

(** The endpoints of the custom branch. *)
Definition custom_endpoints : list endpoint :=
  [Endpoint "/items" "GET" (Some "List items") "list_items";
   Endpoint "/items" "POST" (Some "Create item") "create_item"].

(** The options of the select box:
    [list(demo_apis.keys()) + ["Custom requirement"]]. *)
Definition choices : list string :=
  (keys demo_apis ++ ["Custom requirement"])%list.

(** The values of the text widgets of the custom branch. *)
Record custom_inputs : Type := CustomInputs {
  input_api_name : string;
  input_desc : string;
  input_version : string;
  input_requirement : string
}.

(** The variables the selection binds. *)
Record generation_request : Type := GenerationRequest {
  req_api_name : string;
  req_version : string;
  req_desc : string;
  req_endpoints : list endpoint
}.

(** The [if choice != "Custom requirement"] statement; [None] is the
    [KeyError] of [demo_apis[choice]]. *)
Definition select_request (choice : string) (inputs : custom_inputs)
  : option generation_request :=
  if negb (String.eqb choice "Custom requirement") then
    match get choice demo_apis with
    | Some endpoints =>
        Some (GenerationRequest choice "0.1.0"
                ("Auto-generated " ++ choice ++ " using Agentic AI API Engineer.")
                endpoints)
    | None => None
    end
  else
    Some (GenerationRequest (input_api_name inputs) (input_version inputs)
            (input_desc inputs) custom_endpoints).

(** [s.replace(old, new)] for one-character [old] and [new]. *)
Fixpoint replace_char (old new : ascii) (s : string) : string :=
  match s with
  | EmptyString => EmptyString
  | String c s' =>
      String (if Ascii.eqb c old then new else c) (replace_char old new s')
  end.

(** The [file_name] of the download button. *)
Definition download_file_name (api_name : string) : string :=
  replace_char " " "_" api_name ++ "_cradle.zip".


Section Page.

Variable safe_dump : node -> string.
Variable deflate : string -> string.


End Page.

(** The score the feedback block shows; [None] when [if endpoints:]
    skips the block. *)
Definition quality_feedback (endpoints : list endpoint) : option Z :=
  match endpoints with
  | [] => None
  | _ => Some (evaluate_api_quality endpoints)
  end.

(** ** More vocabulary *)

(** The elements of a list, each kept at its first occurrence. *)
Fixpoint first_occurrences (l : list string) : list string :=
  match l with
  | [] => []
  | x :: rest =>
      x :: filter (fun y => negb (String.eqb y x)) (first_occurrences rest)
  end.

(** The keys of a dictionary after one more assignment. *)
Definition add_key (ks : list string) (k : string) : list string :=
  if in_list k ks then ks else (ks ++ [k])%list.

(** The methods given for a path, lower-cased, in input order. *)
Definition methods_of (p : string) (eps : list endpoint) : list string :=
  map (fun ep => lower (method ep))
    (filter (fun ep => String.eqb (path ep) p) eps).

(** The entry of the path map an endpoint writes to. *)
Definition target (ep : endpoint) : string * string :=
  (path ep, lower (method ep)).

(** Two endpoints that write the same operation to the same entry. *)
Definition same_operation (a b : endpoint) : Prop :=
  path a = path b /\ lower (method a) = lower (method b) /\
  summary_or_empty a = summary_or_empty b.

(** Two endpoints with the same method up to case and handler names of
    the same length. *)
Definition same_for_scoring (a b : endpoint) : Prop :=
  upper (method a) = upper (method b) /\
  String.length (func_name a) = String.length (func_name b).

(** Two endpoints with the same method up to case and the same path. *)
Definition same_request (a b : endpoint) : Prop :=
  lower (method a) = lower (method b) /\ path a = path b.

(** The lines of the client script's preamble. *)
Definition client_preamble_lines : list string :=
  ["import requests";
   "BASE_URL = " ++ dq ++ "http://localhost:8000" ++ dq;
   ""].

(** Path and method of the endpoint hold no line feed. *)
Definition single_line_request (ep : endpoint) : Prop :=
  no_line_feed (path ep) /\ no_line_feed (method ep).

(** The member name [zipfile] stores for [fname] is one it accepts. *)
Definition accepted_name (fname : string) : bool :=
  match zipinfo_filename fname with
  | EmptyString => false
  | name => (N.of_nat (String.length name) <=? max_name_length)%N
  end.

(** * Properties *)

(** ** Lists *)

Lemma filter_none {A} (f : A -> bool) (l : list A) :
  (forall x, In x l -> f x = false) -> filter f l = [].
Proof.
  induction l as [|a l IH]; simpl; intros H; auto.
  rewrite (H a) by auto. apply IH. auto.
Qed.

Lemma find_app_first {A} (f : A -> bool) (l1 l2 : list A) :
  find f (l1 ++ l2) =
  match find f l1 with
  | Some x => Some x
  | None => find f l2
  end.
Proof.
  induction l1 as [|a l1 IH]; simpl; auto.
  now destruct (f a).
Qed.

(** ** Strings *)

Lemma append_assoc (a b c : string) : ((a ++ b) ++ c = a ++ (b ++ c))%string.
Proof. induction a; simpl; [|rewrite IHa]; reflexivity. Qed.

Lemma append_empty_r (a : string) : (a ++ "" = a)%string.
Proof. induction a; simpl; [|rewrite IHa]; reflexivity. Qed.

Lemma append_cancel_l (a x y : string) : (a ++ x = a ++ y)%string -> x = y.
Proof.
  induction a as [|c a IH]; simpl; intros H; [exact H|].
  injection H as H. now apply IH.
Qed.

(** Brings both sides of an equation between texts to the same nesting. *)
Ltac flatten_text :=
  unfold nl, dq;
  repeat (progress (rewrite ?append_assoc, ?append_empty_r; cbn [append])).

Lemma prefix_empty (s : string) : String.prefix "" s = true.
Proof. destruct s; reflexivity. Qed.

Lemma has_char_append (c : ascii) (a b : string) :
  has_char c (a ++ b) = has_char c a || has_char c b.
Proof.
  induction a as [|d a IH]; simpl; [reflexivity|].
  rewrite IH. apply orb_assoc.
Qed.

Lemma has_LF_lower (s : string) : has_char LF (lower s) = has_char LF s.
Proof.
  induction s as [|c s IH]; simpl; [reflexivity|].
  rewrite IH. f_equal.
  destruct c as [[] [] [] [] [] [] [] []]; reflexivity.
Qed.

(** A line without line feed, closed by one, is the first line. *)
Lemma lines_first (a rest : string) :
  no_line_feed a -> lines (a ++ nl ++ rest) = a :: lines rest.
Proof.
  unfold no_line_feed.
  induction a as [|c a IH]; intros H; [reflexivity|].
  change (has_char LF (String c a))
    with (Ascii.eqb LF c || has_char LF a) in H.
  apply orb_false_iff in H as [Hc Ha].
  change (lines (String c a ++ nl ++ rest))
    with (if Ascii.eqb c LF then "" :: lines (a ++ nl ++ rest)
          else match lines (a ++ nl ++ rest) with
               | [] => [String c ""]
               | l :: ls => String c l :: ls
               end).
  rewrite Ascii.eqb_sym, Hc, (IH Ha). reflexivity.
Qed.

Lemma lines_unlines (ls : list string) :
  Forall no_line_feed ls -> lines (unlines ls) = ls.
Proof.
  unfold unlines.
  induction 1 as [|l ls Hl _ IH]; simpl; [reflexivity|].
  rewrite append_assoc, lines_first by assumption.
  now rewrite IH.
Qed.

Lemma unlines_app (l1 l2 : list string) :
  unlines (l1 ++ l2) = (unlines l1 ++ unlines l2)%string.
Proof.
  unfold unlines. induction l1 as [|a l1 IH]; simpl; [reflexivity|].
  now rewrite IH, !append_assoc.
Qed.

(** ** Dictionaries *)

Section DictFacts.

Context {V : Type}.
Implicit Types (k : string) (v : V) (d : odict V).

Lemma get_set_same k v d : get k (set k v d) = Some v.
Proof.
  induction d as [|[k' v'] d IH]; simpl.
  - now rewrite String.eqb_refl.
  - destruct (String.eqb k k') eqn:E; simpl; rewrite E; auto.
Qed.

Lemma get_set_other k k' v d : k <> k' -> get k' (set k v d) = get k' d.
Proof.
  intros Hne. induction d as [|[k0 v0] d IH]; simpl.
  - destruct (String.eqb_spec k' k); congruence.
  - destruct (String.eqb_spec k k0) as [->|]; simpl.
    + destruct (String.eqb_spec k' k0); congruence.
    + now rewrite IH.
Qed.

Lemma keys_set k v d k' : In k' (keys (set k v d)) <-> k' = k \/ In k' (keys d).
Proof.
  induction d as [|[k0 v0] d IH]; simpl.
  - intuition congruence.
  - destruct (String.eqb_spec k k0) as [->|]; simpl.
    + intuition congruence.
    + unfold keys in IH. rewrite IH. intuition congruence.
Qed.

Lemma NoDup_keys_set k v d : NoDup (keys d) -> NoDup (keys (set k v d)).
Proof.
  induction d as [|[k0 v0] d IH]; simpl; intros H.
  - repeat constructor. intros [].
  - inversion H as [|? ? Hnotin Hnd]; subst.
    destruct (String.eqb_spec k k0) as [->|Hne]; simpl.
    + now constructor.
    + constructor; [|now apply IH].
      intros Hin. apply keys_set in Hin. destruct Hin; [congruence | auto].
Qed.

Lemma get_in_keys k d : In k (keys d) <-> get k d <> None.
Proof.
  induction d as [|[k0 v0] d IH]; simpl.
  - intuition.
  - destruct (String.eqb_spec k k0) as [->|Hne].
    + split; [discriminate | auto].
    + rewrite <- IH. intuition congruence.
Qed.

Lemma Forall_values_set (Q : V -> Prop) k v d :
  Q v -> Forall (fun kv => Q (snd kv)) d ->
  Forall (fun kv => Q (snd kv)) (set k v d).
Proof.
  intros Hv. induction d as [|[k0 v0] d IH]; simpl; intros H.
  - now repeat constructor.
  - inversion H; subst.
    destruct (String.eqb k k0); constructor; auto.
Qed.

Lemma get_Forall_values (Q : V -> Prop) k v d :
  Forall (fun kv => Q (snd kv)) d -> get k d = Some v -> Q v.
Proof.
  induction d as [|[k0 v0] d IH]; simpl; intros H Hg; [discriminate|].
  inversion H; subst.
  destruct (String.eqb k k0); [injection Hg as <-; auto | auto].
Qed.

(** With distinct keys, the bindings of [k] are the one [get] finds. *)
Lemma filter_key_unique k v d :
  NoDup (keys d) -> get k d = Some v ->
  filter (fun kv => String.eqb (fst kv) k) d = [(k, v)].
Proof.
  induction d as [|[k0 v0] d IH]; simpl; intros Hnd Hg; [discriminate|].
  inversion Hnd as [|? ? Hnotin Hnd']; subst.
  rewrite (String.eqb_sym k0 k).
  destruct (String.eqb_spec k k0) as [->|Hne].
  - injection Hg as <-. f_equal.
    apply filter_none. intros [k1 v1] Hin. simpl.
    destruct (String.eqb_spec k1 k0) as [->|]; auto.
    exfalso. apply Hnotin. apply (in_map fst) in Hin. exact Hin.
  - now apply IH.
Qed.

Lemma filter_key_absent k d :
  get k d = None -> filter (fun kv => String.eqb (fst kv) k) d = [].
Proof.
  induction d as [|[k0 v0] d IH]; simpl; intros Hg; auto.
  rewrite (String.eqb_sym k0 k).
  destruct (String.eqb k k0); [discriminate | auto].
Qed.

End DictFacts.

(** ** [generate_openapi] *)

Section OpenApiFacts.

Implicit Types (p m : string) (ep : endpoint) (P : odict (odict node)).

Lemma build_paths_snoc eps ep :
  build_paths (eps ++ [ep]) = add_operation (build_paths eps) ep.
Proof. unfold build_paths. now rewrite fold_left_app. Qed.

Lemma targets_spec p m ep :
  targets p m ep = true <-> path ep = p /\ lower (method ep) = m.
Proof.
  unfold targets. rewrite andb_true_iff.
  now rewrite !String.eqb_eq.
Qed.

Lemma last_write_snoc p m eps ep :
  last_write p m (eps ++ [ep]) =
  if targets p m ep then Some ep else last_write p m eps.
Proof. unfold last_write. now rewrite rev_app_distr. Qed.

(** What one turn of the loop does to a lookup. *)
Lemma lookup_add_operation P ep p m :
  lookup_operation p m (add_operation P ep) =
  if targets p m ep then Some (operation (summary_or_empty ep))
  else lookup_operation p m P.
Proof.
  unfold lookup_operation, add_operation, targets, setdefault_value.
  destruct (String.eqb_spec (path ep) p) as [<-|Hp]; simpl.
  - rewrite get_set_same.
    destruct (String.eqb_spec (lower (method ep)) m) as [<-|Hm].
    + apply get_set_same.
    + rewrite get_set_other by assumption.
      unfold odict in *. destruct (get (path ep) P); reflexivity.
  - rewrite get_set_other by assumption. reflexivity.
Qed.

(** The entry at [paths[p][m]] is the one written by the last endpoint
    that targets it. *)
Lemma lookup_build_paths eps p m :
  lookup_operation p m (build_paths eps) =
  option_map (fun ep => operation (summary_or_empty ep)) (last_write p m eps).
Proof.
  induction eps as [|ep eps IH] using rev_ind; [reflexivity|].
  rewrite build_paths_snoc, lookup_add_operation, last_write_snoc.
  now destruct (targets p m ep).
Qed.

Lemma last_write_some p m eps ep :
  last_write p m eps = Some ep ->
  In ep eps /\ path ep = p /\ lower (method ep) = m.
Proof.
  unfold last_write. intros H. apply find_some in H as [Hin Ht].
  apply In_rev in Hin. apply targets_spec in Ht. tauto.
Qed.

Lemma last_write_none p m eps :
  last_write p m eps = None ->
  forall ep, In ep eps -> ~ (path ep = p /\ lower (method ep) = m).
Proof.
  unfold last_write. intros H ep Hin Ht.
  apply targets_spec in Ht. apply In_rev in Hin.
  pose proof (find_none _ _ H ep Hin). congruence.
Qed.

Lemma well_keyed_add P ep : well_keyed P -> well_keyed (add_operation P ep).
Proof.
  intros [Hk Hv]. unfold add_operation, setdefault_value. split.
  - now apply NoDup_keys_set.
  - apply (Forall_values_set (fun ops => NoDup (keys ops))); [|exact Hv].
    apply NoDup_keys_set. unfold odict in *.
    destruct (get (path ep) P) as [ops|] eqn:E; [|constructor].
    exact (get_Forall_values (fun ops => NoDup (keys ops)) _ _ _ Hv E).
Qed.

Lemma well_keyed_build eps : well_keyed (build_paths eps).
Proof.
  induction eps as [|ep eps IH] using rev_ind.
  - split; constructor.
  - rewrite build_paths_snoc. now apply well_keyed_add.
Qed.

Lemma keys_add_operation P ep p :
  In p (keys (add_operation P ep)) <-> p = path ep \/ In p (keys P).
Proof. unfold add_operation. apply keys_set. Qed.

Lemma keys_build_paths eps p :
  In p (keys (build_paths eps)) <-> exists ep, In ep eps /\ path ep = p.
Proof.
  induction eps as [|ep eps IH] using rev_ind.
  - simpl. split; [intros [] | intros (? & [] & _)].
  - rewrite build_paths_snoc, keys_add_operation, IH. split.
    + intros [->|(e & Hin & He)].
      * exists ep. split; [apply in_or_app; simpl; auto | reflexivity].
      * exists e. split; [apply in_or_app; auto | assumption].
    + intros (e & Hin & He). apply in_app_or in Hin as [Hin|[->|[]]].
      * right. now exists e.
      * left. now symmetry.
Qed.

Lemma method_keys_build_paths eps p ops m :
  get p (build_paths eps) = Some ops ->
  (In m (keys ops) <->
   exists ep, In ep eps /\ path ep = p /\ lower (method ep) = m).
Proof.
  intros Hg. rewrite get_in_keys.
  pose proof (lookup_build_paths eps p m) as L.
  unfold lookup_operation in L. rewrite Hg in L. rewrite L. split.
  - destruct (last_write p m eps) as [ep|] eqn:E; [|intros H; now elim H].
    intros _. exists ep. now apply last_write_some.
  - intros (ep & Hin & Hp & Hm).
    destruct (last_write p m eps) as [e|] eqn:E; [discriminate|].
    exfalso. exact (last_write_none _ _ _ E ep Hin (conj Hp Hm)).
Qed.

(** The entries of [(p, m)] in the flattened map. *)
Lemma entries_filter P p m :
  well_keyed P ->
  filter (is_entry_of p m) (entries P) =
  match lookup_operation p m P with
  | Some op => [(p, m, op)]
  | None => []
  end.
Proof.
  unfold lookup_operation.
  induction P as [|[p0 ops] P IH]; intros [Hk Hv]; simpl; [reflexivity|].
  inversion Hk as [|? ? Hnotin Hk']; subst.
  inversion Hv as [|? ? Hops Hv']; subst. simpl in Hops.
  rewrite filter_app, (IH (conj Hk' Hv')).
  assert (Hmap : forall l : odict node,
             filter (is_entry_of p m) (map (fun mo => (p0, fst mo, snd mo)) l) =
             if String.eqb p0 p
             then map (fun mo => (p0, fst mo, snd mo))
                      (filter (fun mo => String.eqb (fst mo) m) l)
             else []).
  { induction l as [|[m0 o0] l IHl]; simpl.
    - now destruct (String.eqb p0 p).
    - unfold is_entry_of at 1. simpl. rewrite IHl.
      destruct (String.eqb p0 p); simpl; [|reflexivity].
      now destruct (String.eqb m0 m). }
  rewrite Hmap, (String.eqb_sym p0 p).
  destruct (String.eqb_spec p p0) as [->|Hne].
  - assert (Hnone : get p0 P = None).
    { destruct (get p0 P) eqn:E; auto.
      exfalso. apply Hnotin. apply get_in_keys. congruence. }
    rewrite Hnone, app_nil_r.
    destruct (get m ops) as [op|] eqn:E.
    + now rewrite (filter_key_unique m op ops Hops E).
    + now rewrite (filter_key_absent m ops E).
  - reflexivity.
Qed.

Lemma add_operation_same_but_func_name P a b :
  same_but_func_name a b -> add_operation P a = add_operation P b.
Proof.
  intros (Hp & Hm & Hs). unfold add_operation, summary_or_empty.
  now rewrite Hp, Hm, Hs.
Qed.

Lemma build_paths_same_but_func_name eps1 eps2 :
  Forall2 same_but_func_name eps1 eps2 -> build_paths eps1 = build_paths eps2.
Proof.
  unfold build_paths. generalize (@nil (string * odict node)).
  intros P H. revert P.
  induction H as [|a b l1 l2 Hab _ IH]; intros P; simpl; [reflexivity|].
  rewrite (add_operation_same_but_func_name P a b Hab). apply IH.
Qed.

Example build_paths_todo_api :
  build_paths todo_api
  = [("/todos", [("get", operation "List todos");
                 ("post", operation "Create todo")])].
Proof. reflexivity. Qed.

End OpenApiFacts.

(** C1. The [paths] mapping of the document [generate_openapi] serializes
    has one key per distinct path of the endpoint list and, under each
    path, one key per distinct lower-cased method given for that path;
    every entry is [{summary, responses: {"200": {description: "Success"}}}]
    with the summary of an endpoint of that path and method (the empty
    string when it has none). For the empty list the mapping is empty. *)
Theorem generate_openapi_paths
    (safe_dump : node -> string) (api_name version desc : string)
    (endpoints : list endpoint) :
  let doc := openapi_spec api_name version desc endpoints in
  let P := build_paths endpoints in
  generate_openapi safe_dump api_name version desc endpoints = safe_dump doc /\
  field "paths" doc = Some (paths_node P) /\
  NoDup (keys P) /\
  (forall p, In p (keys P) <-> exists ep, In ep endpoints /\ path ep = p) /\
  (forall p ops, get p P = Some ops ->
     NoDup (keys ops) /\
     forall m, In m (keys ops) <->
               exists ep, In ep endpoints /\ path ep = p /\
                          lower (method ep) = m) /\
  (forall p m op, lookup_operation p m P = Some op ->
     exists ep, In ep endpoints /\ path ep = p /\ lower (method ep) = m /\
                op = Map [("summary", Str (summary_or_empty ep));
                          ("responses",
                           Map [("200", Map [("description", Str "Success")])])]) /\
  field "paths" (openapi_spec api_name version desc []) = Some (Map []).
Proof.
  intros doc P.
  destruct (well_keyed_build endpoints) as [Hk Hv]. fold P in Hk, Hv.
  repeat split.
  - exact Hk.
  - apply keys_build_paths.
  - apply keys_build_paths.
  - exact (get_Forall_values (fun o => NoDup (keys o)) _ _ _ Hv H).
  - now apply method_keys_build_paths.
  - now apply method_keys_build_paths.
  - intros p m op H. unfold P in H. rewrite lookup_build_paths in H.
    destruct (last_write p m endpoints) as [ep|] eqn:E; [|discriminate].
    injection H as <-. exists ep.
    destruct (last_write_some _ _ _ _ E) as (Hin & Hp & Hm). auto.
Qed.

(** C5. When several endpoints have the same path and lower-cased method,
    the entry of that pair is the one of the last of them in input order,
    and it is the only entry of the pair in the map. *)
Theorem generate_openapi_last_write_wins
    (before after : list endpoint) (ep : endpoint) :
  (forall ep', In ep' after ->
     ~ (path ep' = path ep /\ lower (method ep') = lower (method ep))) ->
  let P := build_paths (before ++ ep :: after) in
  lookup_operation (path ep) (lower (method ep)) P
    = Some (operation (summary_or_empty ep)) /\
  filter (is_entry_of (path ep) (lower (method ep))) (entries P)
    = [(path ep, lower (method ep), operation (summary_or_empty ep))].
Proof.
  intros Hlast P.
  assert (L : lookup_operation (path ep) (lower (method ep)) P
              = Some (operation (summary_or_empty ep))).
  { unfold P. rewrite lookup_build_paths. unfold last_write.
    rewrite rev_app_distr. simpl. rewrite <- app_assoc. simpl.
    rewrite find_app_first.
    assert (N : find (targets (path ep) (lower (method ep))) (rev after) = None).
    { destruct (find _ (rev after)) as [e|] eqn:E; auto.
      apply find_some in E as [Hin Ht]. apply In_rev in Hin.
      apply targets_spec in Ht. now elim (Hlast e Hin). }
    rewrite N. simpl.
    assert (T : targets (path ep) (lower (method ep)) ep = true)
      by now apply targets_spec.
    now rewrite T. }
  split; [exact L|].
  rewrite entries_filter by apply well_keyed_build.
  now rewrite L.
Qed.

Lemma generate_openapi_last_write_wins_witness :
  let eps := [Endpoint "/todos" "GET" (Some "List todos") "list_todos";
              Endpoint "/todos" "get" (Some "All todos") "all_todos";
              Endpoint "/todos" "POST" (Some "Create todo") "create_todo"] in
  lookup_operation "/todos" "get" (build_paths eps)
    = Some (operation "All todos") /\
  filter (is_entry_of "/todos" "get") (entries (build_paths eps))
    = [("/todos", "get", operation "All todos")].
Proof.
  apply (generate_openapi_last_write_wins
           [Endpoint "/todos" "GET" (Some "List todos") "list_todos"]
           [Endpoint "/todos" "POST" (Some "Create todo") "create_todo"]
           (Endpoint "/todos" "get" (Some "All todos") "all_todos")).
  simpl. intros ep' [<-|[]]. simpl. intros [_ H]. discriminate H.
Defined.

(** C9. [generate_openapi] does not read [func_name]: endpoint lists that
    agree pairwise on path, method and summary give the same document. *)
Theorem generate_openapi_ignores_func_name
    (safe_dump : node -> string) (api_name version desc : string)
    (endpoints1 endpoints2 : list endpoint) :
  Forall2 same_but_func_name endpoints1 endpoints2 ->
  generate_openapi safe_dump api_name version desc endpoints1 =
  generate_openapi safe_dump api_name version desc endpoints2.
Proof.
  intros H. unfold generate_openapi, openapi_spec.
  now rewrite (build_paths_same_but_func_name _ _ H).
Qed.

Lemma generate_openapi_ignores_func_name_witness :
  generate_openapi (fun _ => "") "Todo API" "0.1.0" "demo"
    [Endpoint "/todos" "GET" (Some "List todos") "list_todos"] =
  generate_openapi (fun _ => "") "Todo API" "0.1.0" "demo"
    [Endpoint "/todos" "GET" (Some "List todos") "x"].
Proof.
  apply (generate_openapi_ignores_func_name (fun _ => "")).
  repeat constructor.
Defined.

(** ** Letter case *)

Section CaseFacts.

Lemma lower_upper_char c : lower_char (upper_char c) = lower_char c.
Proof. destruct c as [[] [] [] [] [] [] [] []]; reflexivity. Qed.

Lemma upper_lower_char c : upper_char (lower_char c) = upper_char c.
Proof. destruct c as [[] [] [] [] [] [] [] []]; reflexivity. Qed.

Lemma lower_upper s : lower (upper s) = lower s.
Proof. induction s; simpl; [|rewrite lower_upper_char, IHs]; reflexivity. Qed.

Lemma upper_lower s : upper (lower s) = upper s.
Proof. induction s; simpl; [|rewrite upper_lower_char, IHs]; reflexivity. Qed.

(** Comparing upper-cased strings is comparing lower-cased ones. *)
Lemma upper_eq_iff_lower_eq s t : upper s = upper t <-> lower s = lower t.
Proof.
  split; intros H.
  - rewrite <- (lower_upper s), <- (lower_upper t). now rewrite H.
  - rewrite <- (upper_lower s), <- (upper_lower t). now rewrite H.
Qed.

Lemma eqb_upper_caseless (verb s : string) :
  upper verb = verb ->
  String.eqb verb (upper s) = caseless_eq s verb.
Proof.
  intros Hv. unfold caseless_eq.
  destruct (String.eqb_spec verb (upper s)) as [E|E];
    destruct (String.eqb_spec (lower s) (lower verb)) as [F|F]; auto.
  - exfalso. apply F. apply upper_eq_iff_lower_eq. congruence.
  - exfalso. apply E. apply upper_eq_iff_lower_eq in F. congruence.
Qed.

End CaseFacts.

(** ** [evaluate_api_quality] *)

Section QualityFacts.

Open Scope Z_scope.

Lemma count_if_filter {A} (f : A -> bool) (l : list A) :
  count_if f l = len (filter f l).
Proof.
  unfold count_if, len.
  assert (G : forall acc,
             fold_left (fun a x => if f x then a + 1 else a) l acc
             = acc + Z.of_nat (List.length (filter f l))).
  { induction l as [|x l IH]; intros acc; simpl; [lia|].
    rewrite IH. destruct (f x); simpl List.length; lia. }
  now rewrite G.
Qed.

Lemma filter_length_le {A} (f : A -> bool) (l : list A) :
  (List.length (filter f l) <= List.length l)%nat.
Proof.
  induction l as [|x l IH]; simpl; [lia|].
  destruct (f x); simpl; lia.
Qed.

Lemma filter_all_iff {A} (f : A -> bool) (l : list A) :
  List.length (filter f l) = List.length l <-> forallb f l = true.
Proof.
  induction l as [|x l IH]; simpl; [tauto|].
  pose proof (filter_length_le f l).
  destruct (f x); simpl; [rewrite <- IH; lia | split; [lia | discriminate]].
Qed.

Lemma filter_some_iff {A} (f : A -> bool) (l : list A) :
  (0 < List.length (filter f l))%nat <-> existsb f l = true.
Proof.
  induction l as [|x l IH]; simpl; [split; [lia | discriminate]|].
  destruct (f x); simpl; [split; [auto | lia] | exact IH].
Qed.

Lemma in_list_methods verb (eps : list endpoint) :
  upper verb = verb ->
  in_list verb (map (fun ep => upper (method ep)) eps) = has_method verb eps.
Proof.
  intros Hv. unfold in_list, has_method.
  induction eps as [|ep eps IH]; simpl; [reflexivity|].
  now rewrite IH, eqb_upper_caseless.
Qed.

Lemma clarity_branch (eps : list endpoint) :
  (if len eps <=? count_if clear_name eps then 2
   else if 0 <? count_if clear_name eps then 1 else 0)
  = clarity_points eps.
Proof.
  rewrite count_if_filter. unfold clarity_points, len.
  pose proof (filter_length_le clear_name eps) as Hle.
  pose proof (filter_all_iff clear_name eps) as Hall.
  pose proof (filter_some_iff clear_name eps) as Hsome.
  destruct (forallb clear_name eps).
  - destruct (Z.leb_spec (Z.of_nat (List.length eps))
                (Z.of_nat (List.length (filter clear_name eps)))); auto.
    destruct Hall as [_ Hall]. specialize (Hall eq_refl). lia.
  - destruct (Z.leb_spec (Z.of_nat (List.length eps))
                (Z.of_nat (List.length (filter clear_name eps)))).
    + assert (List.length (filter clear_name eps) = List.length eps) as E by lia.
      apply Hall in E. discriminate.
    + destruct (existsb clear_name eps).
      * destruct (Z.ltb_spec 0 (Z.of_nat (List.length (filter clear_name eps)))); auto.
        destruct Hsome as [_ Hsome]. specialize (Hsome eq_refl). lia.
      * destruct (Z.ltb_spec 0 (Z.of_nat (List.length (filter clear_name eps)))); auto.
        assert (0 < List.length (filter clear_name eps))%nat as E by lia.
        apply Hsome in E. discriminate.
Qed.

(** The code computes the score the rules describe. *)
Lemma evaluate_api_quality_by_the_rules (eps : list endpoint) :
  evaluate_api_quality eps = score_by_the_rules eps.
Proof.
  destruct eps as [|ep eps]; [reflexivity|].
  unfold evaluate_api_quality, score_by_the_rules.
  set (l := ep :: eps).
  change (fun e : endpoint => 3 <? strlen (func_name e)) with clear_name.
  rewrite !in_list_methods by reflexivity.
  rewrite <- clarity_branch.
  unfold breadth_points, crud_points.
  generalize (len l <=? count_if clear_name l) (0 <? count_if clear_name l)
             (3 <=? len l) (len l =? 2)
             (has_method "GET" l) (has_method "POST" l).
  intros [] [] [] [] [] []; reflexivity.
Qed.

Lemma score_by_the_rules_range (eps : list endpoint) :
  0 <= score_by_the_rules eps <= 10.
Proof.
  destruct eps as [|ep eps]; simpl; [lia|].
  unfold breadth_points, crud_points, clarity_points.
  repeat match goal with
         | |- context [if ?b then _ else _] => destruct b
         | |- context [match ?b with true => _ | false => _ end] => destruct b
         end; lia.
Qed.

Lemma existsb_perm {A} (f : A -> bool) (l l' : list A) :
  Permutation l l' -> existsb f l = existsb f l'.
Proof.
  induction 1; simpl; try congruence.
  destruct (f x), (f y); reflexivity.
Qed.

Lemma forallb_perm {A} (f : A -> bool) (l l' : list A) :
  Permutation l l' -> forallb f l = forallb f l'.
Proof.
  induction 1; simpl; try congruence.
  destruct (f x), (f y); reflexivity.
Qed.

Lemma score_by_the_rules_perm (l l' : list endpoint) :
  Permutation l l' -> score_by_the_rules l = score_by_the_rules l'.
Proof.
  intros H.
  destruct l as [|a l].
  - apply Permutation_nil in H. now subst.
  - destruct l' as [|b l'].
    + apply Permutation_sym, Permutation_nil in H. discriminate.
    + unfold score_by_the_rules.
      unfold breadth_points, crud_points, clarity_points, has_method, len.
      rewrite (Permutation_length H).
      rewrite (existsb_perm clear_name _ _ H), (forallb_perm clear_name _ _ H).
      rewrite (existsb_perm (fun ep => caseless_eq (method ep) "GET") _ _ H).
      rewrite (existsb_perm (fun ep => caseless_eq (method ep) "POST") _ _ H).
      reflexivity.
Qed.

Example score_empty : evaluate_api_quality [] = 0.
Proof. reflexivity. Qed.

Example score_todo_api : evaluate_api_quality todo_api = 8.
Proof. reflexivity. Qed.

Example score_single_get :
  evaluate_api_quality [Endpoint "/x" "GET" None "x"] = 2.
Proof. reflexivity. Qed.

Example score_calculator_api : evaluate_api_quality calculator_api = 5.
Proof. reflexivity. Qed.

End QualityFacts.

(** C2. [evaluate_api_quality] is 0 on the empty list and otherwise the
    sum of the breadth points (5 for three or more endpoints, 3 for two,
    1 for one), the CRUD points (3 when GET and POST both occur among the
    methods whatever their case, 1 when one of them does, else 0) and the
    clarity points (2 when every handler name is longer than three
    characters, 1 when some but not all are, else 0); it lies in 0..10. *)
Theorem evaluate_api_quality_score (endpoints : list endpoint) :
  evaluate_api_quality [] = 0%Z /\
  evaluate_api_quality endpoints =
    match endpoints with
    | [] => 0%Z
    | _ => (breadth_points endpoints + crud_points endpoints
            + clarity_points endpoints)%Z
    end /\
  (0 <= evaluate_api_quality endpoints <= 10)%Z.
Proof.
  split; [reflexivity|]. split.
  - apply evaluate_api_quality_by_the_rules.
  - rewrite evaluate_api_quality_by_the_rules. apply score_by_the_rules_range.
Qed.

(** C10. Reordering the endpoint list does not change the score. *)
Theorem evaluate_api_quality_permutation (endpoints endpoints' : list endpoint) :
  Permutation endpoints endpoints' ->
  evaluate_api_quality endpoints = evaluate_api_quality endpoints'.
Proof.
  intros H. rewrite !evaluate_api_quality_by_the_rules.
  now apply score_by_the_rules_perm.
Qed.

Lemma evaluate_api_quality_permutation_witness :
  evaluate_api_quality
    [Endpoint "/todos" "GET" (Some "List todos") "list_todos";
     Endpoint "/todos" "POST" (Some "Create todo") "add"] =
  evaluate_api_quality
    [Endpoint "/todos" "POST" (Some "Create todo") "add";
     Endpoint "/todos" "GET" (Some "List todos") "list_todos"].
Proof.
  apply evaluate_api_quality_permutation. apply perm_swap.
Defined.

(** ** [scaffold_fastapi_app] *)

Section FastApiFacts.

(** [Template(...)] succeeds on the literal and yields the tree. *)
Lemma fastapi_template_parsed :
  Jinja.template fastapi_template_source = Some fastapi_template_tree.
Proof. vm_compute. reflexivity. Qed.

Lemma for_each_map {A} (x : string) (ctx : Jinja.context)
    (body : Jinja.context -> option string)
    (f : A -> Jinja.value) (g : A -> string) (l : list A) :
  (forall a, body (set x (f a) ctx) = Some (g a)) ->
  Jinja.for_each x ctx body (map f l) = Some (concat_all (map g l)).
Proof.
  intros H. induction l as [|a l IH]; simpl; [reflexivity|].
  now rewrite H, IH.
Qed.

Lemma render_for (x : string) (it : Jinja.expr) (body : list Jinja.tnode)
    (ctx : Jinja.context) (vs : list Jinja.value) :
  Jinja.eval ctx it = Some (Jinja.VList vs) ->
  Jinja.render_node (Jinja.For x it body) ctx =
  Jinja.for_each x ctx
    (fun ctx' => Jinja.cat_all (map (fun n => Jinja.render_node n ctx') body)) vs.
Proof. intros H. cbn [Jinja.render_node]. now rewrite H. Qed.

(** One turn of the loop prints one handler after a line feed. *)
Lemma render_loop_body (ctx : Jinja.context) (ep : endpoint) :
  Jinja.cat_all
    (map (fun n => Jinja.render_node n (set "ep" (endpoint_value ep) ctx))
       endpoint_block_tree)
  = Some (nl ++ endpoint_handler ep).
Proof.
  unfold endpoint_block_tree, map, Jinja.cat_all, Jinja.render_node, Jinja.eval.
  rewrite get_set_same.
  unfold endpoint_handler, handler_decl, demo_body, summary_or_empty,
    endpoint_value.
  destruct (summary ep) as [s|]; simpl; flatten_text; reflexivity.
Qed.

Lemma render_loop (w : world) (api_name version : string) (eps : list endpoint) :
  Jinja.render_node (Jinja.For "ep" (Jinja.Name "endpoints") endpoint_block_tree)
    (render_context w api_name version eps)
  = Some (concat_all (map (fun ep => nl ++ endpoint_handler ep) eps)).
Proof.
  rewrite (render_for _ _ _ _ (map endpoint_value eps)) by reflexivity.
  apply for_each_map. intros ep. apply render_loop_body.
Qed.

Lemma scaffold_fastapi_app_text (w : world) (api_name version : string)
    (eps : list endpoint) :
  scaffold_fastapi_app w api_name version eps =
  Some (fastapi_header api_name version
        ++ layout_handlers (health_handler (utcnow_isoformat w)
                            :: map endpoint_handler eps)).
Proof.
  unfold scaffold_fastapi_app. rewrite fastapi_template_parsed.
  unfold fastapi_template_tree, Jinja.render.
  cbn [map Jinja.cat_all]. rewrite render_loop.
  unfold layout_handlers, fastapi_header, health_handler, handler_decl,
    health_body.
  rewrite map_map. unfold render_context.
  cbn [Jinja.render_node Jinja.eval get String.eqb Ascii.eqb
    Bool.eqb Jinja.to_text Jinja.cat].
  flatten_text. reflexivity.
Qed.

(** The scaffold as a sequence of lines. *)
Lemma scaffold_fastapi_app_unlines (w : world) (api_name version : string)
    (eps : list endpoint) :
  scaffold_fastapi_app w api_name version eps =
  Some (unlines (fastapi_lines w api_name version eps)).
Proof.
  rewrite scaffold_fastapi_app_text. f_equal.
  unfold fastapi_lines. rewrite unlines_app.
  assert (L : forall l,
             concat_all (map (fun h' => nl ++ h') (map endpoint_handler l))
             = unlines (flat_map endpoint_lines l)).
  { induction l as [|ep l IH]; [reflexivity|].
    cbn [map concat_all flat_map]. rewrite unlines_app, IH.
    unfold endpoint_lines, unlines, endpoint_handler, handler_decl,
      decorator_line, def_line, return_line.
    cbn [map concat_all]. flatten_text. reflexivity. }
  unfold layout_handlers. rewrite L.
  set (tail := unlines (flat_map endpoint_lines eps)).
  unfold fastapi_header, health_handler, handler_decl, unlines,
    app_line, decorator_line, def_line, return_line, health_body.
  cbn [map concat_all]. flatten_text. reflexivity.
Qed.

Lemma def_lines_endpoints (eps : list endpoint) :
  filter is_def_line (flat_map endpoint_lines eps)
  = map (fun ep => def_line (func_name ep)) eps.
Proof.
  induction eps as [|ep eps IH]; [reflexivity|].
  cbn [flat_map]. rewrite filter_app, IH.
  unfold endpoint_lines, decorator_line, def_line, return_line, is_def_line.
  simpl. rewrite prefix_empty. reflexivity.
Qed.

Lemma fastapi_lines_single (w : world) (api_name version : string)
    (eps : list endpoint) :
  no_line_feed api_name -> no_line_feed version ->
  no_line_feed (utcnow_isoformat w) -> Forall single_line_fields eps ->
  Forall no_line_feed (fastapi_lines w api_name version eps).
Proof.
  unfold no_line_feed. intros Hn Hv Ht He.
  unfold fastapi_lines. apply Forall_app. split.
  - unfold no_line_feed, app_line, decorator_line, def_line, return_line,
      health_body.
    repeat constructor;
      rewrite ?has_char_append, ?Hn, ?Hv, ?Ht; reflexivity.
  - induction He as [|ep eps (Hp & Hm & Hs & Hf) _ IH]; [constructor|].
    cbn [flat_map]. apply Forall_app. split; [|exact IH].
    unfold no_line_feed in *.
    unfold endpoint_lines, decorator_line, def_line, return_line, demo_body.
    repeat constructor;
      rewrite ?has_char_append, ?has_LF_lower, ?Hp, ?Hm, ?Hs, ?Hf; reflexivity.
Qed.

(** When no argument holds a line feed, the lines of the scaffold that
    open a handler are the one of the health check and one per endpoint,
    in input order. *)
Lemma scaffold_fastapi_app_def_lines (w : world) (api_name version : string)
    (eps : list endpoint) :
  no_line_feed api_name -> no_line_feed version ->
  no_line_feed (utcnow_isoformat w) -> Forall single_line_fields eps ->
  exists text,
    scaffold_fastapi_app w api_name version eps = Some text /\
    def_lines text
    = def_line "health" :: map (fun ep => def_line (func_name ep)) eps /\
    List.length (def_lines text) = List.length eps + 1.
Proof.
  intros Hn Hv Ht He.
  exists (unlines (fastapi_lines w api_name version eps)).
  split; [apply scaffold_fastapi_app_unlines|].
  assert (D : def_lines (unlines (fastapi_lines w api_name version eps))
              = def_line "health" :: map (fun ep => def_line (func_name ep)) eps).
  { unfold def_lines.
    rewrite lines_unlines by now apply fastapi_lines_single.
    unfold fastapi_lines. rewrite filter_app, def_lines_endpoints.
    unfold app_line, decorator_line, def_line, return_line, is_def_line.
    simpl. rewrite ?prefix_empty. reflexivity. }
  split; [exact D|].
  rewrite D. simpl. rewrite length_map. lia.
Qed.

(** Without endpoints the scaffold holds the health check alone. *)
Example scaffold_fastapi_app_empty (w : world) (api_name version : string) :
  scaffold_fastapi_app w api_name version []
  = Some (fastapi_header api_name version
          ++ health_handler (utcnow_isoformat w) ++ nl).
Proof. rewrite scaffold_fastapi_app_text. reflexivity. Qed.

End FastApiFacts.




(** ** [scaffold_client_demo] *)

Section ClientFacts.

Lemma client_code_flat_map (eps : list endpoint) :
  client_code eps =
  client_preamble :: flat_map (fun ep => [request_line ep; print_line]) eps.
Proof.
  unfold client_code.
  assert (G : forall code,
             fold_left
               (fun code ep => ((code ++ [request_line ep]) ++ [print_line])%list)
               eps code
             = (code ++ flat_map (fun ep => [request_line ep; print_line]) eps)%list).
  { induction eps as [|ep eps IH]; intros code; simpl.
    - now rewrite app_nil_r.
    - rewrite IH, <- !app_assoc. reflexivity. }
  now rewrite G.
Qed.

(** The list [code] has the preamble and two items per endpoint. *)
Lemma client_code_length (eps : list endpoint) :
  List.length (client_code eps) = 2 * List.length eps + 1.
Proof.
  rewrite client_code_flat_map. simpl. f_equal.
  induction eps as [|ep eps IH]; simpl; lia.
Qed.

(** The request line never mentions the constant in a replacement
    field: what stands between the braces is a quoted string. *)
Lemma request_line_quotes_base_url (ep : endpoint) :
  request_line ep =
  "resp = requests." ++ lower (method ep) ++ "(f'{'BASE_URL'}" ++ path ep ++ "')".
Proof. unfold request_line, str_of_singleton, repr_plain. flatten_text. reflexivity. Qed.

(** No endpoint gets the request line over the constant. *)
Lemma request_line_never_over_base_url (ep : endpoint) :
  request_line ep <> request_line_over_base_url ep.
Proof.
  rewrite request_line_quotes_base_url. unfold request_line_over_base_url.
  intros H. apply append_cancel_l, append_cancel_l in H. discriminate H.
Qed.

(** The script is the items of [code] joined by line feeds. *)
Lemma scaffold_client_demo_text (eps : list endpoint) :
  scaffold_client_demo eps =
  join nl (client_preamble
           :: flat_map (fun ep => [request_line ep; print_line]) eps).
Proof. unfold scaffold_client_demo. now rewrite client_code_flat_map. Qed.

Example scaffold_client_demo_empty : scaffold_client_demo [] = client_preamble.
Proof. reflexivity. Qed.

End ClientFacts.

(** C4 (the code departs from the claim). For the Todo demo the client
    script is the preamble followed by a request line and a print line
    per endpoint, in input order; but each request line calls
    [f'{'BASE_URL'}/todos'], a replacement field holding the quoted text
    BASE_URL, and not [f'{BASE_URL}/todos'], the constant the preamble
    declares. *)
Theorem scaffold_client_demo_todo :
  scaffold_client_demo todo_api =
    join nl [ "import requests";
              "BASE_URL = " ++ dq ++ "http://localhost:8000" ++ dq;
              "";
              "resp = requests.get(f'{'BASE_URL'}/todos')";
              "print(resp.status_code, resp.text)";
              "resp = requests.post(f'{'BASE_URL'}/todos')";
              "print(resp.status_code, resp.text)" ] /\
  map request_line todo_api <> map request_line_over_base_url todo_api /\
  contains "{BASE_URL}" (scaffold_client_demo todo_api) = false.
Proof.
  split; [vm_compute; reflexivity|].
  split; [vm_compute; discriminate | vm_compute; reflexivity].
Qed.

(** ** [make_zip] *)

Section ZipFacts.

Variables deflate inflate : string -> string.
Hypothesis inflate_deflate : forall data, inflate (deflate data) = data.

Lemma zipinfo_filename_id (fname : string) :
  has_char NUL fname = false -> zipinfo_filename fname = fname.
Proof.
  induction fname as [|c s IH]; [reflexivity|].
  change (has_char NUL (String c s)) with (Ascii.eqb NUL c || has_char NUL s).
  intros H. apply orb_false_iff in H as [Hc Hs].
  cbn [zipinfo_filename]. rewrite Ascii.eqb_sym, Hc, (IH Hs). reflexivity.
Qed.

Lemma writestr_storable (z : list zip_member) (fname content : string) :
  storable_name fname ->
  writestr deflate z fname content
  = Some (z ++ [ZipMember fname (deflate content)])%list.
Proof.
  intros (Hne & Hnul & Hlen). unfold writestr.
  rewrite (zipinfo_filename_id fname Hnul).
  destruct fname as [|c s]; [congruence|].
  apply N.leb_le in Hlen. now rewrite Hlen.
Qed.

(** What a successful [writestr] appends. *)
Lemma writestr_some (z z' : list zip_member) (fname content : string) :
  writestr deflate z fname content = Some z' ->
  z' = (z ++ [ZipMember (zipinfo_filename fname) (deflate content)])%list.
Proof.
  unfold writestr. destruct (zipinfo_filename fname) as [|c s]; [discriminate|].
  destruct (N.of_nat (String.length (String c s)) <=? max_name_length)%N;
    [|discriminate].
  now intros [= <-].
Qed.

Lemma fold_writestr_none (files : odict string) :
  fold_left (fun acc kv =>
               match acc with
               | Some z => writestr deflate z (fst kv) (snd kv)
               | None => None
               end) files None = None.
Proof. induction files as [|kv files IH]; simpl; auto. Qed.

(** The members of an archive that was built are the items of the
    mapping, in its order, under the names [ZipInfo] gives them. *)
Lemma make_zip_members (files : odict string) (z : list zip_member) :
  make_zip deflate files = Some z ->
  unzip inflate z = map (fun kv => (zipinfo_filename (fst kv), snd kv)) files.
Proof.
  unfold make_zip.
  assert (G : forall z0 z1,
             fold_left (fun acc kv =>
                          match acc with
                          | Some z => writestr deflate z (fst kv) (snd kv)
                          | None => None
                          end) files (Some z0) = Some z1 ->
             unzip inflate z1
             = (unzip inflate z0
                ++ map (fun kv => (zipinfo_filename (fst kv), snd kv)) files)%list).
  { induction files as [|[k v] files IH]; intros z0 z1; simpl.
    - intros [= <-]. now rewrite app_nil_r.
    - destruct (writestr deflate z0 k v) as [z0'|] eqn:E.
      + intros H. rewrite (IH _ _ H).
        apply writestr_some in E. subst z0'.
        unfold unzip. rewrite map_app, <- app_assoc. simpl.
        now rewrite inflate_deflate.
      + now rewrite fold_writestr_none. }
  intros H. now rewrite (G [] z H).
Qed.

Lemma make_zip_storable (files : odict string) :
  Forall (fun kv => storable_name (fst kv)) files ->
  exists z, make_zip deflate files = Some z.
Proof.
  unfold make_zip. generalize (@nil zip_member).
  induction files as [|[k v] files IH]; intros z0 H; simpl.
  - now exists z0.
  - inversion H as [|? ? Hk Hrest]; subst. simpl in Hk.
    rewrite (writestr_storable z0 k v Hk). now apply IH.
Qed.

End ZipFacts.

(** C6 (as amended). For every mapping whose file names are non-empty,
    free of null characters and at most 65535 bytes long, the archive is
    built and reading it back gives one entry per key, in the order of the
    mapping, named by the key and holding the value unchanged. *)
Theorem make_zip_roundtrip
    (deflate inflate : string -> string) (files : odict string) :
  (forall data, inflate (deflate data) = data) ->
  Forall (fun kv => storable_name (fst kv)) files ->
  exists z, make_zip deflate files = Some z /\ unzip inflate z = files.
Proof.
  intros Hcodec Hnames.
  destruct (make_zip_storable deflate files Hnames) as [z Hz].
  exists z. split; [exact Hz|].
  rewrite (make_zip_members deflate inflate Hcodec files z Hz).
  clear Hz. induction Hnames as [|[k v] files (_ & Hnul & _) _ IH];
    [reflexivity|].
  simpl in *. now rewrite (zipinfo_filename_id k Hnul), IH.
Qed.

Lemma make_zip_roundtrip_witness :
  exists z, make_zip (fun s => s) [("a.txt", "hello")] = Some z /\
            unzip (fun s => s) z = [("a.txt", "hello")].
Proof.
  apply (make_zip_roundtrip (fun s => s) (fun s => s) [("a.txt", "hello")]).
  - intros data. reflexivity.
  - repeat constructor; simpl; [discriminate | vm_compute; discriminate].
Defined.

(** The claim as stated fails on a file name that holds a null character:
    the member is stored under the name cut there. *)
Lemma make_zip_roundtrip_null_name :
  ~ (forall (deflate inflate : string -> string) (files : odict string),
       (forall data, inflate (deflate data) = data) ->
       NoDup (keys files) ->
       exists z, make_zip deflate files = Some z /\ unzip inflate z = files).
Proof.
  intros H.
  destruct (H (fun s => s) (fun s => s)
              [(String "a" (String NUL "b"), "x")]) as (z & Hz & Hu).
  - reflexivity.
  - repeat constructor. intros [].
  - vm_compute in Hz. injection Hz as <-. vm_compute in Hu. discriminate Hu.
Qed.

(** ** The archive layout *)

(** C8 (as amended). The archive has the four entries [openapi.yaml],
    [backend/main.py], [client_demo.py] and [README.md], and the README is
    three lines: [# <api_name>], an empty line, and the description, each
    closed by a line feed. *)
Theorem project_files_readme
    (api_name desc openapi_yaml fastapi_code client_code : string) :
  let files := project_files api_name desc openapi_yaml fastapi_code client_code in
  keys files = ["openapi.yaml"; "backend/main.py"; "client_demo.py"; "README.md"] /\
  get "README.md" files = Some (unlines ["# " ++ api_name; ""; desc]).
Proof.
  split; [reflexivity|].
  unfold project_files, readme, unlines. cbn [get String.eqb Ascii.eqb Bool.eqb].
  cbn [map concat_all]. f_equal. flatten_text. reflexivity.
Qed.

(** The README of the Todo demo is not a two-line document: an empty
    line stands between the title and the description. *)
Lemma project_files_readme_three_lines :
  let desc := "Auto-generated Todo API using Agentic AI API Engineer." in
  exists text,
    get "README.md" (project_files "Todo API" desc "" "" "") = Some text /\
    lines text = ["# Todo API"; ""; desc] /\
    ~ two_line_document "# Todo API" desc text.
Proof.
  eexists. split; [reflexivity|]. split; [vm_compute; reflexivity|].
  unfold two_line_document. vm_compute. discriminate.
Qed.

(** ** Determinism *)

(** C7. A call of [generate_openapi], [scaffold_client_demo] or
    [evaluate_api_quality] returns the same result in every world; a call
    of [scaffold_fastapi_app] returns a text that is the same in every
    world but for the timestamp it embeds. *)
Theorem generators_deterministic
    (safe_dump : node -> string) (c : generator_call) :
  match c with
  | CallScaffoldFastapi _ _ _ =>
      exists before after,
        forall w, run safe_dump w c
                  = OutText (Some (before ++ utcnow_isoformat w ++ after))
  | _ => forall w1 w2, run safe_dump w1 c = run safe_dump w2 c
  end.
Proof.
  destruct c as [n v d eps | n v eps | eps | eps]; try reflexivity.
  exists (fastapi_header n v
          ++ "@app.get(" ++ dq ++ "/health" ++ dq ++ ")" ++ nl
          ++ "async def health():" ++ nl
          ++ "    return {" ++ dq ++ "status" ++ dq ++ ": " ++ dq ++ "ok" ++ dq
          ++ ", " ++ dq ++ "timestamp" ++ dq ++ ": " ++ dq).
  exists (dq ++ "}" ++ nl ++ nl
          ++ concat_all (map (fun ep => nl ++ endpoint_handler ep) eps)).
  intros w. unfold run. rewrite scaffold_fastapi_app_text. do 2 f_equal.
  unfold layout_handlers, health_handler, handler_decl, health_body,
    fastapi_header.
  rewrite map_map. flatten_text. reflexivity.
Qed.

(** * Further properties *)

(** ** Order and number of the entries of the path map *)

Section PathOrderFacts.

(** The keys after an assignment: unchanged when the key is present,
    else the key comes last. *)
Lemma keys_set_order {V} (k : string) (v : V) (d : odict V) :
  keys (set k v d) =
  if in_list k (keys d) then keys d else (keys d ++ [k])%list.
Proof.
  unfold in_list, keys in *.
  induction d as [|[k0 v0] d IH]; [reflexivity|].
  cbn [set map fst existsb].
  destruct (String.eqb k k0); cbn [map fst orb]; [reflexivity|].
  rewrite IH.
  now destruct (existsb (String.eqb k) (map fst d)).
Qed.

Lemma filter_filter {A} (f g : A -> bool) (l : list A) :
  filter f (filter g l) = filter (fun x => g x && f x) l.
Proof.
  induction l as [|a l IH]; simpl; [reflexivity|].
  destruct (g a); simpl; [destruct (f a)|]; now rewrite ?IH.
Qed.

Lemma in_list_spec (x : string) (l : list string) :
  in_list x l = true <-> In x l.
Proof.
  unfold in_list. rewrite existsb_exists. split.
  - intros (y & Hin & E). apply String.eqb_eq in E. now subst.
  - intros H. exists x. split; [exact H | apply String.eqb_refl].
Qed.

Lemma in_list_app (x : string) (l1 l2 : list string) :
  in_list x (l1 ++ l2) = in_list x l1 || in_list x l2.
Proof. unfold in_list. apply existsb_app. Qed.

(** Inserting keys one after the other keeps the first occurrences. *)
Lemma fold_add_key (l acc : list string) :
  fold_left add_key l acc =
  (acc ++ filter (fun y => negb (in_list y acc)) (first_occurrences l))%list.
Proof.
  revert acc. induction l as [|x l IH]; intros acc; simpl.
  - now rewrite app_nil_r.
  - rewrite IH. unfold add_key. rewrite filter_filter.
    destruct (in_list x acc) eqn:E; simpl.
    + f_equal. apply filter_ext_in. intros y _.
      destruct (String.eqb_spec y x) as [->|]; simpl; [now rewrite E|reflexivity].
    + rewrite <- app_assoc. simpl. f_equal. f_equal.
      apply filter_ext_in. intros y _. rewrite in_list_app. simpl.
      rewrite orb_false_r, negb_orb. apply andb_comm.
Qed.

Lemma first_occurrences_fold (l : list string) :
  fold_left add_key l [] = first_occurrences l.
Proof.
  rewrite fold_add_key. simpl.
  induction (first_occurrences l) as [|a r IH]; simpl; [reflexivity|].
  now rewrite IH.
Qed.

Lemma keys_add_operation_order (P : odict (odict node)) (ep : endpoint) :
  keys (add_operation P ep) = add_key (keys P) (path ep).
Proof. unfold add_operation. apply keys_set_order. Qed.

Lemma keys_build_paths_fold (eps : list endpoint) :
  keys (build_paths eps) = fold_left add_key (map path eps) [].
Proof.
  induction eps as [|ep eps IH] using rev_ind; [reflexivity|].
  rewrite build_paths_snoc, keys_add_operation_order, IH.
  now rewrite map_app, fold_left_app.
Qed.

Lemma method_keys_fold (eps : list endpoint) (p : string) :
  match get p (build_paths eps) with
  | Some ops => keys ops = fold_left add_key (methods_of p eps) []
  | None => methods_of p eps = []
  end.
Proof.
  induction eps as [|ep eps IH] using rev_ind; [reflexivity|].
  rewrite build_paths_snoc. unfold methods_of in *.
  rewrite filter_app, map_app, fold_left_app. simpl.
  unfold add_operation, setdefault_value.
  destruct (String.eqb_spec (path ep) p) as [<-|Hne]; simpl.
  - rewrite get_set_same, keys_set_order. unfold odict in *.
    revert IH.
    destruct (@get (list (string * node)) (path ep) (build_paths eps))
      as [ops|]; intros IH.
    + now rewrite IH.
    + now rewrite IH.
  - rewrite get_set_other by assumption. rewrite !app_nil_r. exact IH.
Qed.

End PathOrderFacts.

(** The paths of the document come in the order in which the endpoint
    list first names them, and so do the methods under each path. *)
Theorem build_paths_key_order (endpoints : list endpoint) :
  keys (build_paths endpoints) = first_occurrences (map path endpoints) /\
  forall p ops, get p (build_paths endpoints) = Some ops ->
                keys ops = first_occurrences (methods_of p endpoints).
Proof.
  split.
  - now rewrite keys_build_paths_fold, first_occurrences_fold.
  - intros p ops H. pose proof (method_keys_fold endpoints p) as K.
    unfold odict in *. rewrite H in K.
    now rewrite K, first_occurrences_fold.
Qed.

Section PathCountFacts.

Lemma length_set {V} (k : string) (v : V) (d : odict V) :
  List.length (set k v d) =
  match get k d with
  | Some _ => List.length d
  | None => S (List.length d)
  end.
Proof.
  induction d as [|[k0 v0] d IH]; simpl; [reflexivity|].
  destruct (String.eqb k k0); simpl; [reflexivity|].
  rewrite IH. now destruct (get k d).
Qed.

Lemma length_entries (P : odict (odict node)) :
  List.length (entries P)
  = list_sum (map (fun po => List.length (snd po)) P).
Proof.
  unfold entries. induction P as [|[p ops] P IH]; simpl; [reflexivity|].
  now rewrite length_app, length_map, IH.
Qed.

Lemma sum_set_present {V} (g : V -> nat) (k : string) (v v0 : V) (d : odict V) :
  get k d = Some v0 ->
  list_sum (map (fun kv => g (snd kv)) (set k v d)) + g v0
  = list_sum (map (fun kv => g (snd kv)) d) + g v.
Proof.
  induction d as [|[k1 v1] d IH]; simpl; [discriminate|].
  destruct (String.eqb k k1); simpl.
  - intros [= ->]. lia.
  - intros H. specialize (IH H). lia.
Qed.

Lemma sum_set_absent {V} (g : V -> nat) (k : string) (v : V) (d : odict V) :
  get k d = None ->
  list_sum (map (fun kv => g (snd kv)) (set k v d))
  = list_sum (map (fun kv => g (snd kv)) d) + g v.
Proof.
  induction d as [|[k1 v1] d IH]; simpl; [lia|].
  destruct (String.eqb k k1); simpl; [discriminate|].
  intros H. specialize (IH H). lia.
Qed.

(** One turn of the loop adds an entry exactly when the pair is new. *)
Lemma length_entries_add (P : odict (odict node)) (ep : endpoint) :
  List.length (entries (add_operation P ep))
  = List.length (entries P)
    + match lookup_operation (path ep) (lower (method ep)) P with
      | Some _ => 0
      | None => 1
      end.
Proof.
  rewrite !length_entries.
  unfold add_operation, lookup_operation, setdefault_value, odict in *.
  destruct (@get (list (string * node)) (path ep) P) as [inner|] eqn:E.
  - pose proof (sum_set_present (@List.length (string * node)) (path ep)
                  (set (lower (method ep)) (operation (summary_or_empty ep)) inner)
                  inner P E) as Hs.
    rewrite length_set in Hs.
    destruct (get (lower (method ep)) inner); lia.
  - rewrite (sum_set_absent (@List.length (string * node)) _ _ _ E).
    reflexivity.
Qed.

Lemma lookup_none_iff (eps : list endpoint) (ep : endpoint) :
  lookup_operation (path ep) (lower (method ep)) (build_paths eps) = None
  <-> ~ In (target ep) (map target eps).
Proof.
  rewrite lookup_build_paths. split.
  - intros H Hin. apply in_map_iff in Hin as (e & He & Hin).
    destruct (last_write (path ep) (lower (method ep)) eps) eqn:L;
      [discriminate|].
    apply (last_write_none _ _ _ L e Hin).
    unfold target in He. now injection He.
  - intros H.
    destruct (last_write (path ep) (lower (method ep)) eps) as [e|] eqn:L;
      [|reflexivity].
    exfalso. apply H. apply last_write_some in L as (Hin & Hp & Hm).
    apply in_map_iff. exists e. split; [|exact Hin].
    unfold target. now rewrite Hp, Hm.
Qed.

Lemma NoDup_snoc {A} (l : list A) (x : A) :
  NoDup (l ++ [x]) <-> NoDup l /\ ~ In x l.
Proof.
  split.
  - intros H.
    apply (Permutation_NoDup (Permutation_sym (Permutation_cons_append l x))) in H.
    apply NoDup_cons_iff in H. tauto.
  - intros [Hl Hx].
    apply (Permutation_NoDup (Permutation_cons_append l x)).
    now constructor.
Qed.

End PathCountFacts.

(** The document has at most one operation per endpoint, and exactly one
    per endpoint when no two endpoints share a path and a method up to
    case. *)
Theorem build_paths_entries_count (endpoints : list endpoint) :
  List.length (entries (build_paths endpoints)) <= List.length endpoints /\
  (List.length (entries (build_paths endpoints)) = List.length endpoints
   <-> NoDup (map target endpoints)).
Proof.
  induction endpoints as [|ep eps [IHle IHeq]] using rev_ind.
  - simpl. split; [lia|]. split; [constructor | reflexivity].
  - rewrite build_paths_snoc, length_entries_add, length_app, map_app.
    simpl. rewrite NoDup_snoc, <- IHeq, <- lookup_none_iff.
    destruct (lookup_operation (path ep) (lower (method ep)) (build_paths eps)).
    + split; [lia|]. split; [lia | intros [_ H]; discriminate H].
    + split; [lia|]. split; [intros H; split; [lia | reflexivity] | lia].
Qed.

Lemma add_operation_same_operation (P : odict (odict node)) (a b : endpoint) :
  same_operation a b -> add_operation P a = add_operation P b.
Proof.
  intros (Hp & Hm & Hs). unfold add_operation. now rewrite Hp, Hm, Hs.
Qed.

(** The document depends on the endpoints through their path, their
    method up to case and their summary, an absent summary counting as
    the empty one. *)
Theorem generate_openapi_same_operations
    (safe_dump : node -> string) (api_name version desc : string)
    (endpoints1 endpoints2 : list endpoint) :
  Forall2 same_operation endpoints1 endpoints2 ->
  generate_openapi safe_dump api_name version desc endpoints1 =
  generate_openapi safe_dump api_name version desc endpoints2.
Proof.
  intros H. unfold generate_openapi, openapi_spec. do 4 f_equal.
  unfold build_paths. generalize (@nil (string * odict node)).
  induction H as [|a b l1 l2 Hab _ IH]; intros P; simpl; [reflexivity|].
  rewrite (add_operation_same_operation P a b Hab). apply IH.
Qed.

Lemma generate_openapi_same_operations_witness :
  generate_openapi (fun _ => "") "Todo API" "0.1.0" "demo"
    [Endpoint "/todos" "GET" None "list_todos"] =
  generate_openapi (fun _ => "") "Todo API" "0.1.0" "demo"
    [Endpoint "/todos" "get" (Some "") "todos"].
Proof.
  apply (generate_openapi_same_operations (fun _ => "")).
  repeat constructor.
Defined.

(** ** More on the quality score *)

Section ScoreFacts.

Open Scope Z_scope.

Lemma get_and_post_need_two (ep : endpoint) :
  caseless_eq (method ep) "GET" && caseless_eq (method ep) "POST" = false.
Proof.
  unfold caseless_eq.
  destruct (String.eqb_spec (lower (method ep)) (lower "GET")) as [E|];
    [|reflexivity].
  rewrite E. reflexivity.
Qed.

Lemma points_ranges (eps : list endpoint) :
  0 <= crud_points eps <= 3 /\ 0 <= clarity_points eps <= 2.
Proof.
  unfold crud_points, clarity_points.
  destruct (has_method "GET" eps), (has_method "POST" eps),
    (forallb clear_name eps), (existsb clear_name eps); lia.
Qed.

Lemma score_by_length (eps : list endpoint) :
  match eps with
  | [] => score_by_the_rules eps = 0
  | [_] => 1 <= score_by_the_rules eps <= 4
  | [_; _] => 3 <= score_by_the_rules eps <= 8
  | _ => 5 <= score_by_the_rules eps <= 10
  end.
Proof.
  destruct eps as [|a [|b [|c eps]]]; [reflexivity| | |].
  - pose proof (get_and_post_need_two a) as G.
    unfold score_by_the_rules, breadth_points, crud_points, clarity_points,
      has_method. simpl existsb. simpl forallb. simpl len.
    rewrite !orb_false_r, andb_true_r.
    destruct (caseless_eq (method a) "GET"), (caseless_eq (method a) "POST"),
      (clear_name a); simpl in *; try discriminate; lia.
  - pose proof (points_ranges [a; b]).
    unfold score_by_the_rules.
    replace (breadth_points [a; b]) with 3 by reflexivity. lia.
  - pose proof (points_ranges (a :: b :: c :: eps)).
    unfold score_by_the_rules, breadth_points, len.
    destruct (Z.leb_spec 3 (Z.of_nat (List.length (a :: b :: c :: eps))));
      [lia|]. simpl List.length in *. lia.
Qed.

Lemma score_ten_iff (eps : list endpoint) :
  score_by_the_rules eps = 10 <->
  (3 <= List.length eps)%nat /\ has_method "GET" eps = true /\
  has_method "POST" eps = true /\ forallb clear_name eps = true.
Proof.
  pose proof (score_by_length eps) as B.
  destruct eps as [|a [|b [|c eps]]]; simpl List.length.
  - split; [discriminate | intros [H _]; lia].
  - split; [lia | intros [H _]; lia].
  - split; [lia | intros [H _]; lia].
  - clear B. unfold score_by_the_rules, breadth_points, crud_points,
      clarity_points, len.
    set (l := a :: b :: c :: eps).
    destruct (Z.leb_spec 3 (Z.of_nat (List.length l)));
      [|subst l; simpl List.length in *; lia].
    destruct (has_method "GET" l), (has_method "POST" l),
      (forallb clear_name l), (existsb clear_name l);
      split; try lia; try (intros (_ & ? & ? & ?); discriminate);
      intros _; repeat split; lia.
Qed.

Lemma same_for_scoring_method (a b : endpoint) (verb : string) :
  same_for_scoring a b ->
  caseless_eq (method a) verb = caseless_eq (method b) verb.
Proof.
  intros [Hm _]. unfold caseless_eq.
  apply upper_eq_iff_lower_eq in Hm. now rewrite Hm.
Qed.

Lemma same_for_scoring_clear (a b : endpoint) :
  same_for_scoring a b -> clear_name a = clear_name b.
Proof. intros [_ Hl]. unfold clear_name, strlen. now rewrite Hl. Qed.

Lemma score_same_for_scoring (l1 l2 : list endpoint) :
  Forall2 same_for_scoring l1 l2 ->
  score_by_the_rules l1 = score_by_the_rules l2.
Proof.
  intros H.
  assert (Hg : forall verb, has_method verb l1 = has_method verb l2).
  { intros verb. unfold has_method.
    induction H as [|a b l1 l2 Hab _ IH]; simpl; [reflexivity|].
    now rewrite (same_for_scoring_method a b verb Hab), IH. }
  assert (Hf : forallb clear_name l1 = forallb clear_name l2).
  { clear Hg. induction H as [|a b l1 l2 Hab _ IH]; simpl; [reflexivity|].
    now rewrite (same_for_scoring_clear a b Hab), IH. }
  assert (He : existsb clear_name l1 = existsb clear_name l2).
  { clear Hg Hf. induction H as [|a b l1 l2 Hab _ IH]; simpl; [reflexivity|].
    now rewrite (same_for_scoring_clear a b Hab), IH. }
  assert (L : List.length l1 = List.length l2) by now apply Forall2_length in H.
  destruct H as [|a b l1 l2 _ _]; [reflexivity|].
  unfold score_by_the_rules, breadth_points, crud_points, clarity_points, len.
  now rewrite L, !Hg, Hf, He.
Qed.

Lemma forallb_existsb {A} (f : A -> bool) (a : A) (l : list A) :
  forallb f (a :: l) = true -> existsb f (a :: l) = true.
Proof. simpl. intros H. apply andb_true_iff in H as [-> _]. reflexivity. Qed.

Lemma score_cons (e : endpoint) (eps : list endpoint) :
  score_by_the_rules eps - 1 <= score_by_the_rules (e :: eps) /\
  ((List.length eps <= 2)%nat ->
   score_by_the_rules eps < score_by_the_rules (e :: eps)).
Proof.
  pose proof (score_by_length (e :: eps)) as B.
  destruct eps as [|a [|b [|c eps]]].
  - simpl in *. split; [lia | intros _; lia].
  - pose proof (score_by_length [a]) as A. simpl in B, A.
    assert (T : score_by_the_rules [a] < score_by_the_rules [e; a]).
    { clear A B.
      unfold score_by_the_rules, breadth_points, crud_points, clarity_points,
        has_method. simpl existsb. simpl forallb. simpl len.
      destruct (caseless_eq (method e) "GET"), (caseless_eq (method e) "POST"),
        (caseless_eq (method a) "GET"), (caseless_eq (method a) "POST"),
        (clear_name e), (clear_name a); simpl; lia. }
    split; [lia | intros _; exact T].
  - assert (T : score_by_the_rules [a; b] < score_by_the_rules [e; a; b]).
    { clear B.
      unfold score_by_the_rules, breadth_points, crud_points, clarity_points,
        has_method. simpl existsb. simpl forallb. simpl len.
      destruct (caseless_eq (method e) "GET"), (caseless_eq (method e) "POST"),
        (caseless_eq (method a) "GET"), (caseless_eq (method a) "POST"),
        (caseless_eq (method b) "GET"), (caseless_eq (method b) "POST"),
        (clear_name e), (clear_name a), (clear_name b); simpl; lia. }
    split; [lia | intros _; exact T].
  - clear B. split; [|simpl; lia].
    set (l := a :: b :: c :: eps).
    unfold score_by_the_rules. fold l.
    replace (breadth_points (e :: l)) with 5
      by (unfold breadth_points, len;
          destruct (Z.leb_spec 3 (Z.of_nat (List.length (e :: l))));
          [reflexivity | subst l; simpl List.length in *; lia]).
    replace (breadth_points l) with 5
      by (unfold breadth_points, len;
          destruct (Z.leb_spec 3 (Z.of_nat (List.length l)));
          [reflexivity | subst l; simpl List.length in *; lia]).
    pose proof (forallb_existsb clear_name a (b :: c :: eps)) as FX.
    fold l in FX.
    unfold crud_points, clarity_points, has_method.
    change (existsb ?f (e :: l)) with (f e || existsb f l).
    change (forallb ?f (e :: l)) with (f e && forallb f l).
    destruct (caseless_eq (method e) "GET"), (caseless_eq (method e) "POST"),
      (clear_name e),
      (existsb (fun ep => caseless_eq (method ep) "GET") l),
      (existsb (fun ep => caseless_eq (method ep) "POST") l),
      (forallb clear_name l), (existsb clear_name l);
      simpl; try lia; specialize (FX eq_refl); discriminate FX.
Qed.

End ScoreFacts.

(** The score by the size of the list: 0 for no endpoint, 1 to 4 for one,
    3 to 8 for two, 5 to 10 for three or more; the feedback block is
    skipped for the empty list only and never shows less than 1. *)
Theorem evaluate_api_quality_by_length (endpoints : list endpoint) :
  match endpoints with
  | [] => evaluate_api_quality endpoints = 0
  | [_] => 1 <= evaluate_api_quality endpoints <= 4
  | [_; _] => 3 <= evaluate_api_quality endpoints <= 8
  | _ => 5 <= evaluate_api_quality endpoints <= 10
  end%Z /\
  match quality_feedback endpoints with
  | None => endpoints = []
  | Some s => endpoints <> [] /\ s = evaluate_api_quality endpoints /\ (1 <= s)%Z
  end.
Proof.
  pose proof (score_by_length endpoints) as B.
  rewrite <- evaluate_api_quality_by_the_rules in B.
  split; [exact B|].
  destruct endpoints as [|a [|b [|c eps]]]; [reflexivity| | |];
    (split; [discriminate | split; [reflexivity | lia]]).
Qed.

(** The full score is reached exactly by lists of three or more
    endpoints in which GET and POST both occur, whatever their case, and
    every handler name is longer than three characters. *)
Theorem evaluate_api_quality_ten (endpoints : list endpoint) :
  evaluate_api_quality endpoints = 10%Z <->
  3 <= List.length endpoints /\
  has_method "GET" endpoints = true /\ has_method "POST" endpoints = true /\
  forallb clear_name endpoints = true.
Proof. rewrite evaluate_api_quality_by_the_rules. apply score_ten_iff. Qed.

(** The score reads the methods up to case and the lengths of the handler
    names, nothing else: paths and summaries never matter. *)
Theorem evaluate_api_quality_same_for_scoring
    (endpoints1 endpoints2 : list endpoint) :
  Forall2 same_for_scoring endpoints1 endpoints2 ->
  evaluate_api_quality endpoints1 = evaluate_api_quality endpoints2.
Proof.
  intros H. rewrite !evaluate_api_quality_by_the_rules.
  now apply score_same_for_scoring.
Qed.

Lemma evaluate_api_quality_same_for_scoring_witness :
  evaluate_api_quality
    [Endpoint "/todos" "GET" (Some "List todos") "list_todos";
     Endpoint "/todos" "POST" (Some "Create todo") "add"] =
  evaluate_api_quality
    [Endpoint "/a" "get" None "0123456789";
     Endpoint "/b" "Post" (Some "") "xyz"].
Proof.
  apply evaluate_api_quality_same_for_scoring.
  repeat constructor.
Defined.

(** One more endpoint lowers the score by one at most, and raises it as
    long as the list had fewer than three. *)
Theorem evaluate_api_quality_add_endpoint
    (ep : endpoint) (endpoints : list endpoint) :
  (evaluate_api_quality endpoints - 1
   <= evaluate_api_quality (ep :: endpoints))%Z /\
  (List.length endpoints <= 2 ->
   (evaluate_api_quality endpoints < evaluate_api_quality (ep :: endpoints))%Z).
Proof.
  rewrite !evaluate_api_quality_by_the_rules. apply score_cons.
Qed.

(** ** The lines of the two scaffolds *)

Section ScaffoldLineFacts.

Lemma lines_unlines_app (ls : list string) (rest : string) :
  Forall no_line_feed ls ->
  lines (unlines ls ++ rest) = (ls ++ lines rest)%list.
Proof.
  unfold unlines.
  induction 1 as [|l ls Hl _ IH]; [reflexivity|].
  cbn [map concat_all app]. rewrite !append_assoc.
  rewrite lines_first by assumption. now rewrite IH.
Qed.

Lemma join_cons2 (sep a b : string) (rest : list string) :
  join sep (a :: b :: rest) = a ++ sep ++ join sep (b :: rest).
Proof. reflexivity. Qed.

Lemma request_line_single (ep : endpoint) :
  single_line_request ep -> no_line_feed (request_line ep).
Proof.
  unfold single_line_request, no_line_feed. intros [Hp Hm].
  unfold request_line, str_of_singleton, repr_plain.
  rewrite ?has_char_append, has_LF_lower, Hp, Hm. reflexivity.
Qed.

Lemma lines_client_items (ep : endpoint) (eps : list endpoint) :
  Forall single_line_request (ep :: eps) ->
  lines (join nl (flat_map (fun e => [request_line e; print_line]) (ep :: eps)))
  = flat_map (fun e => [request_line e; print_line]) (ep :: eps).
Proof.
  revert ep. induction eps as [|e' eps IH]; intros ep H.
  - inversion H as [|? ? Hep _]; subst.
    cbn [flat_map app]. rewrite join_cons2.
    rewrite lines_first by now apply request_line_single.
    reflexivity.
  - inversion H as [|? ? Hep Hrest]; subst.
    change (flat_map (fun e => [request_line e; print_line]) (ep :: e' :: eps))
      with (request_line ep :: print_line
            :: flat_map (fun e => [request_line e; print_line]) (e' :: eps)).
    specialize (IH e' Hrest).
    remember (flat_map (fun e => [request_line e; print_line]) (e' :: eps))
      as items eqn:Hitems.
    destruct items as [|x xs]; [discriminate Hitems|].
    rewrite !join_cons2.
    rewrite lines_first by now apply request_line_single.
    rewrite (lines_first print_line) by reflexivity.
    now rewrite IH.
Qed.

End ScaffoldLineFacts.

(** When no path and no method holds a line feed, the client script of a
    non-empty list is the three lines of the preamble followed by a
    request line and a print line per endpoint, in input order; for the
    empty list it is the first two lines of the preamble. *)
Theorem scaffold_client_demo_lines (endpoints : list endpoint) :
  Forall single_line_request endpoints ->
  lines (scaffold_client_demo endpoints) =
  match endpoints with
  | [] => removelast client_preamble_lines
  | _ => (client_preamble_lines
          ++ flat_map (fun ep => [request_line ep; print_line]) endpoints)%list
  end.
Proof.
  intros H. rewrite scaffold_client_demo_text.
  destruct endpoints as [|ep eps]; [vm_compute; reflexivity|].
  remember (flat_map (fun e => [request_line e; print_line]) (ep :: eps))
    as items eqn:Hitems.
  assert (L : lines (join nl items) = items)
    by (subst items; now apply lines_client_items).
  destruct items as [|x xs]; [discriminate Hitems|].
  rewrite join_cons2.
  change (client_preamble ++ nl ++ join nl (x :: xs))
    with (unlines client_preamble_lines ++ join nl (x :: xs)).
  rewrite lines_unlines_app by (repeat constructor).
  now rewrite L.
Qed.

Lemma scaffold_client_demo_lines_witness :
  lines (scaffold_client_demo todo_api) =
  (client_preamble_lines
   ++ flat_map (fun ep => [request_line ep; print_line]) todo_api)%list.
Proof.
  apply (scaffold_client_demo_lines todo_api).
  repeat constructor.
Defined.

(** The client script reads the method up to case and the path of each
    endpoint, nothing else. *)
Theorem scaffold_client_demo_same_requests
    (endpoints1 endpoints2 : list endpoint) :
  Forall2 same_request endpoints1 endpoints2 ->
  scaffold_client_demo endpoints1 = scaffold_client_demo endpoints2.
Proof.
  intros H. rewrite !scaffold_client_demo_text. do 2 f_equal.
  induction H as [|a b l1 l2 [Hm Hp] _ IH]; [reflexivity|].
  cbn [flat_map]. rewrite IH. unfold request_line. now rewrite Hm, Hp.
Qed.

Lemma scaffold_client_demo_same_requests_witness :
  scaffold_client_demo [Endpoint "/todos" "GET" (Some "List todos") "list_todos"] =
  scaffold_client_demo [Endpoint "/todos" "get" None "x"].
Proof.
  apply scaffold_client_demo_same_requests. repeat constructor.
Defined.

(** When no argument holds a line feed, the server scaffold has nine
    lines for the header and the health check and four lines per
    endpoint; the lines that open a handler are the one of the health
    check and one per endpoint, in input order. *)
Theorem scaffold_fastapi_app_lines
    (w : world) (api_name version : string) (endpoints : list endpoint) :
  no_line_feed api_name -> no_line_feed version ->
  no_line_feed (utcnow_isoformat w) ->
  Forall single_line_fields endpoints ->
  exists text,
    scaffold_fastapi_app w api_name version endpoints = Some text /\
    lines text = fastapi_lines w api_name version endpoints /\
    List.length (lines text) = 9 + 4 * List.length endpoints /\
    def_lines text
    = def_line "health" :: map (fun ep => def_line (func_name ep)) endpoints.
Proof.
  intros Hn Hv Ht He.
  destruct (scaffold_fastapi_app_def_lines w api_name version endpoints
              Hn Hv Ht He) as (text & Htext & Hdef & _).
  exists text. split; [exact Htext|].
  rewrite scaffold_fastapi_app_unlines in Htext. injection Htext as <-.
  rewrite lines_unlines by now apply fastapi_lines_single.
  split; [reflexivity|]. split; [|exact Hdef].
  unfold fastapi_lines. rewrite length_app. simpl List.length.
  clear. induction endpoints as [|ep eps IH]; [reflexivity|].
  cbn [flat_map]. rewrite length_app. simpl List.length. lia.
Qed.

Lemma scaffold_fastapi_app_lines_witness :
  exists text,
    scaffold_fastapi_app (World "2025-01-01T00:00:00") "Todo API" "0.1.0" todo_api
      = Some text /\
    lines text
      = fastapi_lines (World "2025-01-01T00:00:00") "Todo API" "0.1.0" todo_api /\
    List.length (lines text) = 9 + 4 * List.length todo_api /\
    def_lines text
    = def_line "health" :: map (fun ep => def_line (func_name ep)) todo_api.
Proof.
  apply (scaffold_fastapi_app_lines (World "2025-01-01T00:00:00")
           "Todo API" "0.1.0" todo_api);
    try reflexivity.
  repeat constructor.
Defined.

(** ** More on the archive *)

Section ArchiveFacts.

Variable deflate : string -> string.

Lemma writestr_accepted (z : list zip_member) (fname content : string) :
  writestr deflate z fname content =
  if accepted_name fname
  then Some (z ++ [ZipMember (zipinfo_filename fname) (deflate content)])%list
  else None.
Proof.
  unfold writestr, accepted_name.
  destruct (zipinfo_filename fname) as [|c s]; [reflexivity|].
  now destruct (N.of_nat (String.length (String c s)) <=? max_name_length)%N.
Qed.

Lemma fold_writestr_accepted (files : odict string) (z0 : list zip_member) :
  (exists z,
     fold_left (fun acc kv =>
                  match acc with
                  | Some z => writestr deflate z (fst kv) (snd kv)
                  | None => None
                  end) files (Some z0) = Some z)
  <-> forallb (fun kv => accepted_name (fst kv)) files = true.
Proof.
  revert z0. induction files as [|[k v] files IH]; intros z0; simpl.
  - split; [reflexivity | intros _; now exists z0].
  - rewrite writestr_accepted. destruct (accepted_name k); simpl.
    + apply IH.
    + rewrite fold_writestr_none. split; [intros [z Hz]|]; discriminate.
Qed.

Lemma length_make_zip (files : odict string) (z : list zip_member) :
  make_zip deflate files = Some z -> List.length z = List.length files.
Proof.
  unfold make_zip.
  assert (G : forall z0 z1,
             fold_left (fun acc kv =>
                          match acc with
                          | Some z => writestr deflate z (fst kv) (snd kv)
                          | None => None
                          end) files (Some z0) = Some z1 ->
             List.length z1 = List.length z0 + List.length files).
  { induction files as [|[k v] files IH]; intros z0 z1; simpl.
    - intros [= <-]. lia.
    - rewrite writestr_accepted. destruct (accepted_name k).
      + intros H. rewrite (IH _ _ H), length_app. simpl. lia.
      + now rewrite fold_writestr_none. }
  intros H. now rewrite (G [] z H).
Qed.

End ArchiveFacts.

(** Whenever an archive is built, it holds one member per key of the
    mapping, in the order of the mapping, each with the value as content
    and with the key, cut at its first null character, as name. *)
Theorem make_zip_entries
    (deflate inflate : string -> string) (files : odict string)
    (z : list zip_member) :
  (forall data, inflate (deflate data) = data) ->
  make_zip deflate files = Some z ->
  List.length z = List.length files /\
  unzip inflate z = map (fun kv => (zipinfo_filename (fst kv), snd kv)) files.
Proof.
  intros Hcodec Hz. split.
  - exact (length_make_zip deflate files z Hz).
  - exact (make_zip_members deflate inflate Hcodec files z Hz).
Qed.

Lemma make_zip_entries_witness :
  let files := [(String "a" (String NUL "b"), "x"); ("a", "y")] in
  let z := [ZipMember "a" "x"; ZipMember "a" "y"] in
  List.length z = List.length files /\
  unzip (fun s => s) z
  = map (fun kv => (zipinfo_filename (fst kv), snd kv)) files.
Proof.
  apply (make_zip_entries (fun s => s) (fun s => s)
           [(String "a" (String NUL "b"), "x"); ("a", "y")]
           [ZipMember "a" "x"; ZipMember "a" "y"]).
  - intros data. reflexivity.
  - reflexivity.
Defined.

(** The archive is built exactly when every file name, cut at its first
    null character, is non-empty and at most 65535 bytes long; otherwise
    the call raises. *)
Theorem make_zip_builds_iff (deflate : string -> string) (files : odict string) :
  (exists z, make_zip deflate files = Some z)
  <-> forallb (fun kv => accepted_name (fst kv)) files = true.
Proof. unfold make_zip. apply fold_writestr_accepted. Qed.

(** ** The page *)

Section PageFacts.

Lemma has_char_replace_char (old new : ascii) (s : string) :
  old <> new -> has_char old (replace_char old new s) = false.
Proof.
  intros Hne. induction s as [|c s IH]; [reflexivity|].
  cbn [replace_char has_char]. rewrite IH, orb_false_r.
  destruct (Ascii.eqb_spec c old) as [->|Hc].
  - now apply Ascii.eqb_neq.
  - apply Ascii.eqb_neq. congruence.
Qed.

Lemma length_replace_char (old new : ascii) (s : string) :
  String.length (replace_char old new s) = String.length s.
Proof. induction s as [|c s IH]; simpl; [|rewrite IH]; reflexivity. Qed.

Lemma replace_char_absent (old new : ascii) (s : string) :
  has_char old s = false -> replace_char old new s = s.
Proof.
  induction s as [|c s IH]; [reflexivity|].
  cbn [replace_char has_char]. intros H.
  apply orb_false_iff in H as [Hc Hs].
  rewrite Ascii.eqb_sym, Hc, (IH Hs). reflexivity.
Qed.

Lemma length_append (a b : string) :
  String.length (a ++ b) = String.length a + String.length b.
Proof. induction a as [|c a IH]; simpl; [|rewrite IH]; reflexivity. Qed.

End PageFacts.

(** The name of the download holds no blank, is eleven characters longer
    than the API name, and is the API name followed by [_cradle.zip] when
    that name holds no blank. *)
Theorem download_file_name_no_blank (api_name : string) :
  has_char " " (download_file_name api_name) = false /\
  String.length (download_file_name api_name) = String.length api_name + 11 /\
  (has_char " " api_name = false ->
   download_file_name api_name = api_name ++ "_cradle.zip").
Proof.
  unfold download_file_name. split; [|split].
  - rewrite has_char_append, has_char_replace_char by discriminate.
    reflexivity.
  - now rewrite length_append, length_replace_char.
  - intros H. now rewrite (replace_char_absent _ _ _ H).
Qed.



(** Every option of the select box resolves, whatever the text widgets
    hold: the request has two endpoints, each with a summary, no two with
    the same path and method or the same handler name, so that the
    document lists one operation per endpoint. *)
Theorem select_request_choices (choice : string) (inputs : custom_inputs) :
  In choice choices ->
  exists r,
    select_request choice inputs = Some r /\
    List.length (req_endpoints r) = 2 /\
    Forall (fun ep => summary ep <> None) (req_endpoints r) /\
    NoDup (map target (req_endpoints r)) /\
    NoDup (map func_name (req_endpoints r)) /\
    List.length (entries (build_paths (req_endpoints r))) = 2.
Proof.
  intros H. simpl in H.
  destruct H as [<-|[<-|[<-|[<-|[]]]]];
    (eexists; split; [reflexivity|]);
    (split; [reflexivity|]);
    (split; [repeat (apply Forall_cons; [discriminate|]); apply Forall_nil|]);
    (split; [repeat (apply NoDup_cons; [simpl; intuition discriminate|]);
             apply NoDup_nil|]);
    (split; [repeat (apply NoDup_cons; [simpl; intuition discriminate|]);
             apply NoDup_nil|]);
    reflexivity.
Qed.

Lemma select_request_choices_witness :
  exists r,
    select_request "Custom requirement"
      (CustomInputs "Custom API" "Generated from natural language requirement."
         "0.1.0" "I want a simple API that manages tasks.") = Some r /\
    List.length (req_endpoints r) = 2 /\
    Forall (fun ep => summary ep <> None) (req_endpoints r) /\
    NoDup (map target (req_endpoints r)) /\
    NoDup (map func_name (req_endpoints r)) /\
    List.length (entries (build_paths (req_endpoints r))) = 2.
Proof.
  apply select_request_choices. simpl. tauto.
Defined.
